(** * unwrap: paragraph unwrapping (src/unwrap/core.py)

    A shallow embedding of the three classes of [core.py] -- [Metric],
    [Paragraph] and [Joiner] -- and the properties of the boundary-detection
    pass that the specification states about them.

    Modelling choices, all taken from the source:

    - Python floats are IEEE 754 binary64 numbers: they are Rocq's primitive
      floats, whose operations are the same correctly rounded ones.  An [int]
      that meets a [float] in an arithmetic operation or a comparison is
      converted first ([int_to_float]); the only integers of the program are
      line lengths, their sums and their counts, and below 2^53 the
      conversion is exact, so that the quotient of two converted integers is
      Python's true division and the comparison of a converted integer with
      a float is Python's.  The integer [0] that [avg] returns for an empty
      collection is the float zero, which compares and adds like it.
    - The values a [Metric] collects are line lengths ([len(line)]), so they
      are naturals ([N], unbounded like Python's [int]).
    - Python exceptions are results of the [Py] monad.  The operations of the
      module that can raise are true division ([ZeroDivisionError]) and
      [math.sqrt] ([ValueError] on a negative argument).  A float power
      raises [OverflowError] when it overflows; the square of a difference of
      line lengths is too small for that, and the model leaves it out.
    - A [str] is a [string]; its characters are the code points below 256.
    - The generator [Joiner.__iter__] is modelled by the list of everything it
      yields when it is run to exhaustion, together with the state of the two
      metrics at that point, which is how [iterate] and [list(joiner)] use it. *)

From Stdlib Require Import ZArith NArith List String Ascii Bool Lia.
From Stdlib Require Import Floats.
Import ListNotations.

Local Open Scope string_scope.
Local Open Scope list_scope.

(** ** Exceptions *)

Inductive exn : Type :=
| ZeroDivisionError
| ValueError.

Inductive Py (A : Type) : Type :=
| Ok (a : A)
| Raise (e : exn).

Arguments Ok {A} a.
Arguments Raise {A} e.

Definition bind {A B : Type} (c : Py A) (k : A -> Py B) : Py B :=
  match c with
  | Ok a => k a
  | Raise e => Raise e
  end.

Notation "x <- c ;; k" := (bind c (fun x => k))
  (at level 61, c at next level, right associativity).
Notation "' pat <- c ;; k" := (bind c (fun x => match x with pat => k end))
  (at level 61, pat pattern, c at next level, right associativity).

(** ** Numbers *)

(** [float(n)] for a natural below 2^63. *)
Definition int_to_float (n : N) : float :=
  PrimFloat.of_uint63 (Uint63.of_Z (Z.of_N n)).

(** [a / b] on two ints, under [from __future__ import division]. *)
Definition int_truediv (a b : N) : Py float :=
  if (b =? 0)%N then Raise ZeroDivisionError
  else Ok (int_to_float a / int_to_float b)%float.

(** [x / y] on floats. *)
Definition float_truediv (x y : float) : Py float :=
  if (y =? 0)%float then Raise ZeroDivisionError
  else Ok (x / y)%float.

(** [x ** 2]. *)
Definition float_pow2 (x : float) : float := (x * x)%float.

(** [math.sqrt(x)]: a domain error below zero, NaN for NaN. *)
Definition math_sqrt (x : float) : Py float :=
  if (x <? 0)%float then Raise ValueError
  else Ok (PrimFloat.sqrt x).

(** [x > y]. *)
Definition gtb (x y : float) : bool := (y <? x)%float.

(** [max(a, b)]: the first argument unless the second is greater. *)
Definition py_max (a b : float) : float :=
  if gtb b a then b else a.

(** The builtin [sum] over floats: left to right from [0] (the plain sum
    of the interpreters the module was written for; CPython 3.12 and later
    compensate the rounding errors). *)
Definition py_sum (xs : list float) : float :=
  fold_left (fun acc x => (acc + x)%float) xs 0%float.

(** ** Strings *)

(** The one-character string of the double quote. *)
Definition dquote : string := String (ascii_of_nat 34) EmptyString.

(** [len(s)]. *)
Definition len (s : string) : N := N.of_nat (String.length s).

(** [not s]. *)
Definition str_not (s : string) : bool :=
  match s with
  | EmptyString => true
  | String _ _ => false
  end.

(** [s.endswith(suffix)]. *)
Fixpoint endswith (s suffix : string) : bool :=
  String.eqb s suffix
  || match s with
     | EmptyString => false
     | String _ s' => endswith s' suffix
     end.

(** The whitespace characters of [str.strip()] among the code points below
    256: TAB to CR, FS to US, space, NEL and NBSP. *)
Definition isspace (c : ascii) : bool :=
  let n := N_of_ascii c in
  ((9 <=? n) && (n <=? 13) || (28 <=? n) && (n <=? 32)
   || (n =? 133) || (n =? 160))%N.

Fixpoint lstrip (s : string) : string :=
  match s with
  | EmptyString => EmptyString
  | String c s' => if isspace c then lstrip s' else s
  end.

Fixpoint rstrip (s : string) : string :=
  match s with
  | EmptyString => EmptyString
  | String c s' =>
      let r := rstrip s' in
      if isspace c && str_not r then EmptyString else String c r
  end.

(** [s.strip()]. *)
Definition strip (s : string) : string := rstrip (lstrip s).

(** ** class Metric *)

Module Metric.

Record t : Type := mk {
  count : N;
  sum : N;
  _values : list N
}.

Definition __init__ : t := {| count := 0; sum := 0; _values := [] |}.

Definition add (self : t) (value : N) : t :=
  {| sum := sum self + value;
     count := count self + 1;
     _values := _values self ++ [value] |}.

Definition avg (self : t) : Py float :=
  if negb (count self =? 0)%N then int_truediv (sum self) (count self)
  else Ok 0%float.

Definition dev (self : t) : Py float :=
  mean <- avg self ;;
  math_sqrt
    (py_sum (map (fun value => float_pow2 (int_to_float value - mean)%float)
                 (_values self))).

End Metric.

(** ** class Paragraph *)

Module Paragraph.

Record t : Type := mk {
  _text : string;
  uncertain : bool
}.

Definition __init__ : t := {| _text := ""; uncertain := false |}.

Definition empty (self : t) : bool := str_not (_text self).

Definition text (self : t) : string := _text self.

Definition add (self : t) (line : string) : t :=
  let separator := " " in
  let separator :=
    if empty self then ""
    else if endswith (_text self) "-" then ""
    else separator in
  {| _text := _text self ++ (separator ++ line);
     uncertain := uncertain self |}.

(** [self.uncertain = b]. *)
Definition set_uncertain (self : t) (b : bool) : t :=
  {| _text := _text self; uncertain := b |}.

End Paragraph.

(** ** class Joiner *)

Module Joiner.

Definition END_MARKS : list string := ["."; "?"; "!"].

Definition POSSIBLE_END_MARKS : list string :=
  ["..."; ":";
   String "." dquote; ".'"; String "?" dquote; "?'"; String "!" dquote; "!'";
   ")"; "]"; "}"].

Record t : Type := mk {
  lines : list string;
  _first : Metric.t;
  _middle : Metric.t
}.

Definition __init__ (lines : list string) : t :=
  {| lines := lines;
     _first := Metric.__init__;
     _middle := Metric.__init__ |}.

(** [for mark in marks: if line.endswith(mark): return ...]: whether the
    loop reaches its [return]. *)
Definition ends_with_any (line : string) (marks : list string) : bool :=
  existsb (fun mark => endswith line mark) marks.

(** [if not next_line], for the peeked line or [None]. *)
Definition no_next (next_line : option string) : bool :=
  match next_line with
  | None => true
  | Some s => str_not s
  end.

Definition next_len (next_line : option string) : N :=
  match next_line with
  | None => 0
  | Some s => len s
  end.

Definition _is_last (self : t) (line : string) (next_line : option string)
    (is_first : bool) : Py (bool * bool) :=
  if no_next next_line then Ok (true, true)
  else
    first <- Metric.avg (_first self) ;;
    middle <- Metric.avg (_middle self) ;;
    let last_threshold := (first - (middle - first))%float in
    dev_first <- Metric.dev (_first self) ;;
    dev_middle <- Metric.dev (_middle self) ;;
    if gtb (middle - first)%float (2 * py_max dev_first dev_middle)%float
    then
      middle_threshold <- float_truediv (middle + first)%float 2%float ;;
      if gtb (int_to_float (next_len next_line)) middle_threshold
      then Ok (false, true)
      else if ends_with_any line END_MARKS then
        let threshold :=
          if is_first then last_threshold else middle_threshold in
        Ok (true, (int_to_float (len line) <? threshold)%float)
      else if ends_with_any line POSSIBLE_END_MARKS then
        Ok (true, (int_to_float (len line) <? last_threshold)%float)
      else Ok (false, true)
    else
      if ends_with_any line (END_MARKS ++ POSSIBLE_END_MARKS) then
        Ok (true, (int_to_float (len line) <? last_threshold)%float)
      else Ok (false, true).

(** One turn of the [while] loop of [__iter__], for the current (stripped)
    line and the peeked one: the paragraphs it yields, the paragraph under
    construction and the joiner afterwards. *)
Definition body (self : t) (paragraph : Paragraph.t) (line : string)
    (next_line : option string)
    : Py (list Paragraph.t * Paragraph.t * t) :=
  if str_not line then
    if Paragraph.empty paragraph then
      Ok ([paragraph; Paragraph.__init__], Paragraph.__init__, self)
    else
      Ok ([Paragraph.__init__], paragraph, self)
  else
    let is_first := Paragraph.empty paragraph in
    let paragraph := Paragraph.add paragraph line in
    '(is_last, certain) <- _is_last self line next_line is_first ;;
    if is_last then
      Ok ([Paragraph.set_uncertain paragraph (negb certain)],
          Paragraph.__init__, self)
    else if is_first then
      Ok ([], paragraph,
          {| lines := lines self;
             _first := Metric.add (_first self) (len line);
             _middle := _middle self |})
    else
      Ok ([], paragraph,
          {| lines := lines self;
             _first := _first self;
             _middle := Metric.add (_middle self) (len line) |}).

(** The [while line is not None] loop: [iterator] holds the lines not yet
    read, [line] the current one. *)
Fixpoint loop (iterator : list string) (self : t) (paragraph : Paragraph.t)
    (line : string) {struct iterator} : Py (list Paragraph.t * t) :=
  match iterator with
  | [] =>
      '(out, _, self) <- body self paragraph line None ;;
      Ok (out, self)
  | l :: iterator =>
      let next_line := strip l in
      '(out, paragraph, self) <- body self paragraph line (Some next_line) ;;
      '(outs, self) <- loop iterator self paragraph next_line ;;
      Ok (out ++ outs, self)
  end.

(** [list(self)], with the joiner as the pass leaves it. *)
Definition __iter__ (self : t) : Py (list Paragraph.t * t) :=
  match lines self with
  | [] => Ok ([], self)
  | l :: iterator => loop iterator self Paragraph.__init__ (strip l)
  end.

Fixpoint repeat_pass (n : nat) (self : t) : Py t :=
  match n with
  | O => Ok self
  | S n =>
      '(_, self) <- __iter__ self ;;
      repeat_pass n self
  end.

(** [for _ in range(count): for _ in self: pass]; [range] of a negative
    count is empty. *)
Definition iterate (self : t) (count : Z) : Py t :=
  repeat_pass (Z.to_nat count) self.

(** The dictionary of the [stats] property, as its items in order. *)
Definition stats (self : t) : Py (list (string * float)) :=
  first_avg <- Metric.avg (_first self) ;;
  first_dev <- Metric.dev (_first self) ;;
  middle_avg <- Metric.avg (_middle self) ;;
  middle_dev <- Metric.dev (_middle self) ;;
  Ok [("first avg", first_avg); ("first dev", first_dev);
      ("middle avg", middle_avg); ("middle dev", middle_dev)].

End Joiner.

(** ** command.py *)

Module Command.

(** The line that [run] writes after an uncertain paragraph. *)
Definition UNCERTAIN : string := "### UNCERTAIN ###".

(** The strings that [run] passes to [out_file.write] for one paragraph,
    before they are encoded; [linesep] is [os.linesep]. *)
Definition write_paragraph (linesep : string) (paragraph : Paragraph.t)
    : list string :=
  (Paragraph.text paragraph ++ linesep)%string
  :: (if Paragraph.uncertain paragraph
      then [(UNCERTAIN ++ linesep)%string]
      else []).

(** [run], from the lines it has read, decoded and split to the strings it
    writes: the warm-up passes, the pass that is kept and the output loop.
    The result holds the joiner too, whose [stats] the function prints. *)
Definition run (linesep : string) (lines : list string) (iterations : Z)
    : Py (list string * Joiner.t) :=
  let joiner := Joiner.__init__ lines in
  joiner <- Joiner.iterate joiner (iterations - 1) ;;
  '(paragraphs, joiner) <- Joiner.__iter__ joiner ;;
  Ok (flat_map (write_paragraph linesep) paragraphs, joiner).

End Command.

(** [p.text] of each paragraph of a pass. *)
Definition texts (ps : list Paragraph.t) : list string :=
  map Paragraph.text ps.


(** ** Vocabulary of the statements *)

(** [x] is NaN or has sign bit [b]. *)
Definition sf_sign (b : bool) (x : spec_float) : Prop :=
  match x with
  | S754_nan => True
  | S754_zero s | S754_infinity s | S754_finite s _ _ => s = b
  end.

(** The float [x] is not negative: NaN, or its sign bit is clear. *)
Definition nonneg (x : float) : Prop := sf_sign false (Prim2SF x).

(** [s] ends with [suffix]: some prefix completes it. *)
Definition EndsWith (s suffix : string) : Prop :=
  exists prefix, s = (prefix ++ suffix)%string.

(** A blank line: empty once stripped. *)
Definition blank (l : string) : Prop := strip l = ""%string.

(** The joiner [self] reading [lines] instead of its own. *)
Definition with_lines (self : Joiner.t) (lines : list string) : Joiner.t :=
  {| Joiner.lines := lines;
     Joiner._first := Joiner._first self;
     Joiner._middle := Joiner._middle self |}.

(** What one turn of the loop does, branch by branch: the result of
    [Joiner.body] on a paragraph, the current line and the peeked one. *)
Inductive body_step (self : Joiner.t) (p : Paragraph.t) (line : string)
    (next_line : option string)
    : list Paragraph.t * Paragraph.t * Joiner.t -> Prop :=
| step_blank_flush :
    str_not line = true -> Paragraph.empty p = true ->
    body_step self p line next_line
      ([p; Paragraph.__init__], Paragraph.__init__, self)
| step_blank_keep :
    str_not line = true -> Paragraph.empty p = false ->
    body_step self p line next_line ([Paragraph.__init__], p, self)
| step_last (certain : bool) :
    str_not line = false ->
    Joiner._is_last self line next_line (Paragraph.empty p)
    = Ok (true, certain) ->
    body_step self p line next_line
      ([Paragraph.set_uncertain (Paragraph.add p line) (negb certain)],
       Paragraph.__init__, self)
| step_first (certain : bool) :
    str_not line = false ->
    Joiner._is_last self line next_line (Paragraph.empty p)
    = Ok (false, certain) ->
    Paragraph.empty p = true ->
    body_step self p line next_line
      ([], Paragraph.add p line,
       {| Joiner.lines := Joiner.lines self;
          Joiner._first := Metric.add (Joiner._first self) (len line);
          Joiner._middle := Joiner._middle self |})
| step_middle (certain : bool) :
    str_not line = false ->
    Joiner._is_last self line next_line (Paragraph.empty p)
    = Ok (false, certain) ->
    Paragraph.empty p = false ->
    body_step self p line next_line
      ([], Paragraph.add p line,
       {| Joiner.lines := Joiner.lines self;
          Joiner._first := Joiner._first self;
          Joiner._middle := Metric.add (Joiner._middle self) (len line) |}).


(** The paragraph rule of [Paragraph.add], as the specification words it. *)
Definition add_rule (p : Paragraph.t) (line : string) : Prop :=
  (Paragraph.text p = "" ->
   Paragraph.text (Paragraph.add p line) = line)
  /\ (Paragraph.text p <> "" -> EndsWith (Paragraph.text p) "-" ->
      Paragraph.text (Paragraph.add p line)
      = (Paragraph.text p ++ line)%string)
  /\ (Paragraph.text p <> "" -> ~ EndsWith (Paragraph.text p) "-" ->
      Paragraph.text (Paragraph.add p line)
      = (Paragraph.text p ++ " " ++ line)%string).

(** Neither metric of [s2] has fewer values than it has in [s1]. *)
Definition counts_le (s1 s2 : Joiner.t) : Prop :=
  (Metric.count (Joiner._first s1) <= Metric.count (Joiner._first s2))%N
  /\ (Metric.count (Joiner._middle s1) <= Metric.count (Joiner._middle s2))%N.

(** The number of paragraphs without text among [ps]. *)
Definition count_empty (ps : list Paragraph.t) : nat :=
  List.length (filter Paragraph.empty ps).

(** The number of paragraphs with text among [ps]. *)
Definition count_with_text (ps : list Paragraph.t) : nat :=
  List.length (filter (fun p => negb (Paragraph.empty p)) ps).

(** The number of blank lines among [ls]. *)
Definition count_blank (ls : list string) : nat :=
  List.length (filter (fun l => str_not (strip l)) ls).

(** The text of the paragraph that the lines [g] build, added in order to
    a new Paragraph. *)
Definition join (g : list string) : string :=
  Paragraph.text (fold_left Paragraph.add g Paragraph.__init__).

(** The lines of [ls] that are not empty. *)
Definition nonempty_lines (ls : list string) : list string :=
  filter (fun l => negb (str_not l)) ls.

(** The number of lines among [ls] that are not blank. *)
Definition count_nonblank (ls : list string) : nat :=
  List.length (filter (fun l => negb (str_not (strip l))) ls).

(** The marks that can close a paragraph before a line that is not blank. *)
Definition all_marks : list string :=
  Joiner.END_MARKS ++ Joiner.POSSIBLE_END_MARKS.

(** [count] and [sum] of a Metric are those of its values. *)
Definition Metric_consistent (m : Metric.t) : Prop :=
  Metric.count m = N.of_nat (List.length (Metric._values m))
  /\ Metric.sum m = fold_right N.add 0%N (Metric._values m).

(** Both metrics of a joiner are consistent and hold lengths of lines that
    are not empty. *)
Definition Joiner_consistent (self : Joiner.t) : Prop :=
  Metric_consistent (Joiner._first self)
  /\ Metric_consistent (Joiner._middle self)
  /\ Forall (fun v => (0 < v)%N) (Metric._values (Joiner._first self))
  /\ Forall (fun v => (0 < v)%N) (Metric._values (Joiner._middle self)).

(** The joiner [s2] reads the lines of [s1] and its metrics hold the values
    of those of [s1], then possibly more. *)
Definition extends (s1 s2 : Joiner.t) : Prop :=
  Joiner.lines s2 = Joiner.lines s1
  /\ (exists added,
        Metric._values (Joiner._first s2)
        = Metric._values (Joiner._first s1) ++ added)
  /\ (exists added,
        Metric._values (Joiner._middle s2)
        = Metric._values (Joiner._middle s1) ++ added).

(** The last character of a string, if it has one. *)
Fixpoint last_char (s : string) : option ascii :=
  match s with
  | EmptyString => None
  | String c EmptyString => Some c
  | String _ s' => last_char s'
  end.

(** The string [s] does not start with whitespace. *)
Definition starts_clean (s : string) : Prop :=
  match s with
  | EmptyString => True
  | String c _ => isspace c = false
  end.

(** The string [s] does not end with whitespace. *)
Definition ends_clean (s : string) : Prop :=
  match last_char s with
  | None => True
  | Some c => isspace c = false
  end.

(** ** Sample inputs *)


(** A twenty-character sentence, a blank line, then a paragraph of a
    ten-character first line and a twenty-character middle line. *)
Definition sample_lines : list string :=
  ["It rained all night."; "";
   "The garden"; "was under water then"; "by morning"].

(** A sentence wrapped over three lines, with no mark at the end of a
    line. *)
Definition unmarked_lines : list string :=
  ["The quick brown"; "  fox jumps over"; "the lazy dog"].

(** Three sentences, one on each line. *)
Definition marked_lines : list string :=
  ["It rained."; "We stayed in!"; "Did you?"].

(** The joiner over [sample_lines] after one warm-up pass. *)
Definition sample_joiner : Joiner.t :=
  {| Joiner.lines := sample_lines;
     Joiner._first := Metric.add Metric.__init__ 10;
     Joiner._middle := Metric.add Metric.__init__ 20 |}.

(** * Properties *)

(** ** Signs of binary64 results

    [math.sqrt] raises below zero only, so what the metrics need of the
    floating-point operations is the sign of their results, read off the
    specification of each operation. *)

Lemma binary_round_aux_sign (sx : bool) (mx ex : Z) (lx : location) :
  sf_sign sx (binary_round_aux prec emax sx mx ex lx).
Proof.
  unfold binary_round_aux.
  destruct (shr_fexp prec emax mx ex lx) as [mrs' e'].
  destruct (shr_fexp prec emax _ e' loc_Exact) as [mrs'' e''].
  destruct (shr_m mrs''); simpl; trivial.
  destruct (_ <=? _)%Z; reflexivity.
Qed.

Lemma binary_round_sign (sx : bool) (mx : positive) (ex : Z) :
  sf_sign sx (binary_round prec emax sx mx ex).
Proof.
  unfold binary_round.
  destruct (shl_align mx ex _) as [mz ez].
  apply binary_round_aux_sign.
Qed.

Lemma SFmul_self_sign (x : spec_float) :
  sf_sign false (SF64mul x x).
Proof.
  destruct x as [s | s | | s m e]; simpl; trivial;
    try (destruct s; reflexivity).
  replace (xorb s s) with false by (destruct s; reflexivity).
  apply binary_round_aux_sign.
Qed.

Lemma SFadd_sign (x y : spec_float) :
  sf_sign false x -> sf_sign false y -> sf_sign false (SF64add x y).
Proof.
  destruct x as [sx | sx | | sx mx ex]; destruct y as [sy | sy | | sy my ey];
    simpl; intros Hx Hy; subst; simpl; trivial.
  apply binary_round_sign.
Qed.

Lemma SFdiv_sign (x y : spec_float) :
  sf_sign false x -> sf_sign false y -> sf_sign false (SF64div x y).
Proof.
  destruct x as [sx | sx | | sx mx ex]; destruct y as [sy | sy | | sy my ey];
    simpl; intros Hx Hy; subst; simpl; trivial.
  destruct (SFdiv_core_binary prec emax (Zpos mx) ex (Zpos my) ey)
    as [[mz ez] lz].
  apply binary_round_aux_sign.
Qed.

Lemma nonneg_zero : nonneg 0%float.
Proof. reflexivity. Qed.

Lemma nonneg_two : nonneg 2%float.
Proof. reflexivity. Qed.

Lemma nonneg_pow2 (x : float) : nonneg (float_pow2 x).
Proof.
  unfold nonneg, float_pow2. rewrite mul_spec. apply SFmul_self_sign.
Qed.

Lemma nonneg_add (x y : float) : nonneg x -> nonneg y -> nonneg (x + y)%float.
Proof.
  unfold nonneg. rewrite add_spec. apply SFadd_sign.
Qed.

Lemma nonneg_div (x y : float) : nonneg x -> nonneg y -> nonneg (x / y)%float.
Proof.
  unfold nonneg. rewrite div_spec. apply SFdiv_sign.
Qed.

Lemma nonneg_int_to_float (n : N) : nonneg (int_to_float n).
Proof.
  unfold nonneg, int_to_float. rewrite of_uint63_spec.
  pose proof (Uint63.to_Z_bounded (Uint63.of_Z (Z.of_N n))) as [Hlo _].
  destruct (Uint63.to_Z (Uint63.of_Z (Z.of_N n))) as [| p | p]; simpl.
  - reflexivity.
  - apply binary_round_sign.
  - lia.
Qed.

Lemma nonneg_not_ltb_zero (x : float) : nonneg x -> (x <? 0)%float = false.
Proof.
  unfold nonneg. rewrite ltb_spec.
  change (Prim2SF 0%float) with (S754_zero false).
  destruct (Prim2SF x) as [s | s | | s m e]; simpl; intros H; subst;
    reflexivity.
Qed.

(** ** Comparisons of binary64 numbers *)



Lemma float_truediv_two (x : float) :
  float_truediv x 2%float = Ok (x / 2)%float.
Proof. reflexivity. Qed.

(** ** Strings *)

Lemma endswith_nil (suffix : string) :
  endswith "" suffix = String.eqb "" suffix.
Proof. simpl. apply orb_false_r. Qed.

Lemma endswith_cons (c : ascii) (s suffix : string) :
  endswith (String c s) suffix
  = String.eqb (String c s) suffix || endswith s suffix.
Proof. reflexivity. Qed.

Lemma endswith_iff (s suffix : string) :
  endswith s suffix = true <-> EndsWith s suffix.
Proof.
  unfold EndsWith. induction s as [| c s IH].
  - rewrite endswith_nil, String.eqb_eq. split.
    + intros <-. exists ""%string. reflexivity.
    + intros [[| c p] H]; simpl in H; [exact H | discriminate H].
  - rewrite endswith_cons, orb_true_iff, String.eqb_eq, IH. split.
    + intros [<- | [p ->]].
      * exists ""%string. reflexivity.
      * exists (String c p). reflexivity.
    + intros [[| c' p] H]; simpl in H.
      * left. exact H.
      * right. injection H as _ ->. exists p. reflexivity.
Qed.

Lemma ends_with_any_iff (line : string) (marks : list string) :
  Joiner.ends_with_any line marks = true <-> Exists (EndsWith line) marks.
Proof.
  unfold Joiner.ends_with_any. rewrite existsb_exists, Exists_exists.
  split; intros [mark [Hin H]]; exists mark; split; trivial;
    apply endswith_iff; exact H.
Qed.

Lemma str_not_true (s : string) : str_not s = true <-> s = ""%string.
Proof.
  destruct s; simpl; split; intros H; trivial; discriminate H.
Qed.

Lemma str_not_append (s1 s2 : string) :
  str_not (s1 ++ s2) = str_not s1 && str_not s2.
Proof. destruct s1; reflexivity. Qed.

Lemma str_append_assoc (s1 s2 s3 : string) :
  ((s1 ++ s2) ++ s3 = s1 ++ (s2 ++ s3))%string.
Proof.
  induction s1 as [| c s1 IH]; simpl; [reflexivity | now rewrite IH].
Qed.

(** ** Paragraph *)

Lemma Paragraph_add_not_empty (p : Paragraph.t) (line : string) :
  str_not line = false -> Paragraph.empty (Paragraph.add p line) = false.
Proof.
  intros H. unfold Paragraph.empty, Paragraph.add. simpl.
  rewrite !str_not_append, H, !andb_false_r. reflexivity.
Qed.

Lemma Paragraph_add_EndsWith (p : Paragraph.t) (line : string) :
  EndsWith (Paragraph.text (Paragraph.add p line)) line.
Proof.
  unfold Paragraph.text, Paragraph.add. simpl.
  eexists. rewrite <- str_append_assoc. reflexivity.
Qed.

(** ** Metric *)

Lemma Metric_avg_total (m : Metric.t) :
  exists mean, Metric.avg m = Ok mean /\ nonneg mean.
Proof.
  unfold Metric.avg, int_truediv.
  destruct (Metric.count m =? 0)%N; simpl.
  - exists 0%float. split; [reflexivity | exact nonneg_zero].
  - eexists. split; [reflexivity |].
    apply nonneg_div; apply nonneg_int_to_float.
Qed.

Lemma nonneg_fold_add (xs : list float) (acc : float) :
  nonneg acc -> Forall nonneg xs ->
  nonneg (fold_left (fun a x => (a + x)%float) xs acc).
Proof.
  revert acc. induction xs as [| x xs IH]; simpl; intros acc Hacc Hxs.
  - exact Hacc.
  - inversion Hxs as [| ? ? Hx Hxs']; subst.
    apply IH; [apply nonneg_add; assumption | assumption].
Qed.

Lemma nonneg_sum_squares (mean : float) (values : list N) :
  nonneg (py_sum (map (fun value =>
                         float_pow2 (int_to_float value - mean)%float)
                      values)).
Proof.
  unfold py_sum. apply nonneg_fold_add; [exact nonneg_zero |].
  apply Forall_forall. intros x Hx. apply in_map_iff in Hx.
  destruct Hx as [v [<- _]]. apply nonneg_pow2.
Qed.

Lemma Metric_dev_eq (m : Metric.t) (mean : float) :
  Metric.avg m = Ok mean ->
  Metric.dev m
  = Ok (PrimFloat.sqrt
          (py_sum (map (fun value =>
                          float_pow2 (int_to_float value - mean)%float)
                       (Metric._values m)))).
Proof.
  intros Hmean. unfold Metric.dev. rewrite Hmean. simpl.
  unfold math_sqrt.
  rewrite (nonneg_not_ltb_zero _ (nonneg_sum_squares mean _)).
  reflexivity.
Qed.

Lemma Metric_dev_total (m : Metric.t) : exists dev, Metric.dev m = Ok dev.
Proof.
  destruct (Metric_avg_total m) as [mean [Hmean _]].
  eexists. apply Metric_dev_eq. exact Hmean.
Qed.

(** ** The classification of a line *)

(** The branches of [_is_last] once the metrics are read and the next line
    is not empty. *)
Lemma _is_last_unfold (self : Joiner.t) (line s : string) (is_first : bool)
    (first middle dev_first dev_middle : float) :
  str_not s = false ->
  Metric.avg (Joiner._first self) = Ok first ->
  Metric.avg (Joiner._middle self) = Ok middle ->
  Metric.dev (Joiner._first self) = Ok dev_first ->
  Metric.dev (Joiner._middle self) = Ok dev_middle ->
  let last_threshold := (first - (middle - first))%float in
  let middle_threshold := ((middle + first) / 2)%float in
  Joiner._is_last self line (Some s) is_first
  = Ok (if gtb (middle - first)%float (2 * py_max dev_first dev_middle)%float
        then
          if gtb (int_to_float (len s)) middle_threshold then (false, true)
          else if Joiner.ends_with_any line Joiner.END_MARKS then
            (true,
             (int_to_float (len line)
              <? (if is_first then last_threshold else middle_threshold))%float)
          else if Joiner.ends_with_any line Joiner.POSSIBLE_END_MARKS then
            (true, (int_to_float (len line) <? last_threshold)%float)
          else (false, true)
        else
          if Joiner.ends_with_any line
               (Joiner.END_MARKS ++ Joiner.POSSIBLE_END_MARKS)
          then (true, (int_to_float (len line) <? last_threshold)%float)
          else (false, true)).
Proof.
  intros Hs Hf Hm Hdf Hdm lt mt.
  unfold Joiner._is_last. cbn [Joiner.no_next Joiner.next_len].
  rewrite Hs, Hf, Hm, Hdf, Hdm. cbn [bind].
  rewrite float_truediv_two. cbn [bind]. fold lt mt.
  destruct (gtb _ (2 * _)%float).
  - destruct (gtb _ mt); [reflexivity |].
    destruct (Joiner.ends_with_any line Joiner.END_MARKS); [reflexivity |].
    destruct (Joiner.ends_with_any line Joiner.POSSIBLE_END_MARKS);
      reflexivity.
  - destruct (Joiner.ends_with_any line _); reflexivity.
Qed.

Lemma _is_last_no_next (self : Joiner.t) (line : string)
    (next_line : option string) (is_first : bool) :
  Joiner.no_next next_line = true ->
  Joiner._is_last self line next_line is_first = Ok (true, true).
Proof.
  intros H. unfold Joiner._is_last. rewrite H. reflexivity.
Qed.

Lemma _is_last_total (self : Joiner.t) (line : string)
    (next_line : option string) (is_first : bool) :
  exists is_last certain,
    Joiner._is_last self line next_line is_first = Ok (is_last, certain).
Proof.
  destruct (Joiner.no_next next_line) eqn:Hnext.
  - exists true, true. apply _is_last_no_next. exact Hnext.
  - destruct next_line as [s |]; [| discriminate Hnext]. simpl in Hnext.
    destruct (Metric_avg_total (Joiner._first self)) as [first [Hf _]].
    destruct (Metric_avg_total (Joiner._middle self)) as [middle [Hm _]].
    destruct (Metric_dev_total (Joiner._first self)) as [df Hdf].
    destruct (Metric_dev_total (Joiner._middle self)) as [dm Hdm].
    rewrite (_is_last_unfold self line s is_first _ _ _ _ Hnext Hf Hm Hdf Hdm).
    match goal with |- exists a b, Ok ?r = _ => exists (fst r), (snd r) end.
    rewrite <- surjective_pairing. reflexivity.
Qed.

(** ** One turn of the loop *)

Lemma body_total (self : Joiner.t) (p : Paragraph.t) (line : string)
    (next_line : option string) :
  exists r, Joiner.body self p line next_line = Ok r
            /\ body_step self p line next_line r.
Proof.
  unfold Joiner.body.
  destruct (str_not line) eqn:Hline.
  - destruct (Paragraph.empty p) eqn:Hp; eexists; split; try reflexivity.
    + apply step_blank_flush; assumption.
    + apply step_blank_keep; assumption.
  - destruct (_is_last_total self line next_line (Paragraph.empty p))
      as [is_last [certain H]].
    rewrite H. cbn [bind].
    destruct is_last.
    + eexists; split; [reflexivity |]. apply step_last with (1 := Hline).
      exact H.
    + destruct (Paragraph.empty p) eqn:Hp; eexists; split; try reflexivity.
      * eapply step_first; [exact Hline | rewrite Hp; exact H | exact Hp].
      * eapply step_middle; [exact Hline | rewrite Hp; exact H | exact Hp].
Qed.

(** The loop, one turn at a time. *)
Lemma loop_nil (self : Joiner.t) (p : Paragraph.t) (line : string)
    (out : list Paragraph.t) (p' : Paragraph.t) (self' : Joiner.t) :
  Joiner.body self p line None = Ok (out, p', self') ->
  Joiner.loop [] self p line = Ok (out, self').
Proof. intros H. simpl. rewrite H. reflexivity. Qed.

Lemma loop_cons (l : string) (iterator : list string) (self : Joiner.t)
    (p : Paragraph.t) (line : string)
    (out : list Paragraph.t) (p' : Paragraph.t) (self' : Joiner.t) :
  Joiner.body self p line (Some (strip l)) = Ok (out, p', self') ->
  Joiner.loop (l :: iterator) self p line
  = '(outs, self'') <- Joiner.loop iterator self' p' (strip l) ;;
    Ok (out ++ outs, self'').
Proof. intros H. simpl. rewrite H. reflexivity. Qed.

Lemma loop_total (iterator : list string) (self : Joiner.t)
    (p : Paragraph.t) (line : string) :
  exists out self', Joiner.loop iterator self p line = Ok (out, self').
Proof.
  revert self p line. induction iterator as [| l iterator IH];
    intros self p line.
  - destruct (body_total self p line None) as [[[out p'] self'] [H _]].
    exists out, self'. apply loop_nil with (1 := H).
  - destruct (body_total self p line (Some (strip l)))
      as [[[out p'] self'] [H _]].
    destruct (IH self' p' (strip l)) as [outs [self'' Hloop]].
    exists (out ++ outs), self''.
    rewrite (loop_cons _ _ _ _ _ _ _ _ H), Hloop. reflexivity.
Qed.

Lemma __iter___total (self : Joiner.t) :
  exists out self', Joiner.__iter__ self = Ok (out, self').
Proof.
  unfold Joiner.__iter__. destruct (Joiner.lines self) as [| l iterator].
  - exists [], self. reflexivity.
  - apply loop_total.
Qed.

Lemma loop_nil_inv (self : Joiner.t) (p : Paragraph.t) (line : string)
    (out : list Paragraph.t) (self' : Joiner.t) :
  Joiner.loop [] self p line = Ok (out, self') ->
  exists p', body_step self p line None (out, p', self').
Proof.
  destruct (body_total self p line None) as [[[o p'] s'] [H Hstep]].
  rewrite (loop_nil _ _ _ _ _ _ H). intros Heq.
  injection Heq as <- <-. exists p'. exact Hstep.
Qed.

Lemma loop_cons_inv (l : string) (iterator : list string) (self : Joiner.t)
    (p : Paragraph.t) (line : string)
    (out : list Paragraph.t) (self'' : Joiner.t) :
  Joiner.loop (l :: iterator) self p line = Ok (out, self'') ->
  exists o1 p' self' o2,
    body_step self p line (Some (strip l)) (o1, p', self')
    /\ Joiner.loop iterator self' p' (strip l) = Ok (o2, self'')
    /\ out = o1 ++ o2.
Proof.
  destruct (body_total self p line (Some (strip l)))
    as [[[o1 p'] s'] [H Hstep]].
  rewrite (loop_cons _ _ _ _ _ _ _ _ H).
  destruct (loop_total iterator s' p' (strip l)) as [o2 [s'' Hloop]].
  rewrite Hloop. cbn [bind]. intros Heq. injection Heq as <- <-.
  exists o1, p', s', o2. repeat split; assumption.
Qed.

(** An invariant [I] of the paragraph under construction that every turn
    keeps, a property [R] of everything a turn yields and a preorder [T]
    that every turn respects on the joiner, hold of the whole loop. *)
Section LoopInvariant.

Variable I : Paragraph.t -> Prop.
Variable R : Paragraph.t -> Prop.
Variable T : Joiner.t -> Joiner.t -> Prop.

Hypothesis T_refl : forall s, T s s.
Hypothesis T_trans : forall s1 s2 s3, T s1 s2 -> T s2 s3 -> T s1 s3.

Hypothesis step_ok :
  forall self p line next_line out p' self',
    I p -> body_step self p line next_line (out, p', self') ->
    I p' /\ Forall R out /\ T self self'.

Lemma loop_invariant (iterator : list string) (self : Joiner.t)
    (p : Paragraph.t) (line : string)
    (out : list Paragraph.t) (self' : Joiner.t) :
  I p -> Joiner.loop iterator self p line = Ok (out, self') ->
  Forall R out /\ T self self'.
Proof.
  revert self p line out self'.
  induction iterator as [| l iterator IH]; intros self p line out self' Hp H.
  - apply loop_nil_inv in H. destruct H as [p' Hstep].
    destruct (step_ok _ _ _ _ _ _ _ Hp Hstep) as [_ HRT]. exact HRT.
  - apply loop_cons_inv in H.
    destruct H as [o1 [p' [s' [o2 [Hstep [Hloop ->]]]]]].
    destruct (step_ok _ _ _ _ _ _ _ Hp Hstep) as [Hp' [HR HT]].
    destruct (IH _ _ _ _ _ Hp' Hloop) as [HR' HT'].
    split; [apply Forall_app; split; assumption | eapply T_trans; eassumption].
Qed.

Lemma __iter___invariant (self : Joiner.t)
    (out : list Paragraph.t) (self' : Joiner.t) :
  I Paragraph.__init__ -> Joiner.__iter__ self = Ok (out, self') ->
  Forall R out /\ T self self'.
Proof.
  unfold Joiner.__iter__. intros Hp.
  destruct (Joiner.lines self) as [| l iterator].
  - intros H. injection H as <- <-. split; [constructor | apply T_refl].
  - apply loop_invariant. exact Hp.
Qed.

End LoopInvariant.

(** * The claims *)

Lemma sample_joiner_reached :
  Joiner.iterate (Joiner.__init__ sample_lines) 1 = Ok sample_joiner.
Proof. vm_compute. reflexivity. Qed.

(** ** Metric *)


(** ** Paragraph *)

(** C6, as amended: [p.add(line)] sets the text to [line] when [p] was
    empty, to the text directly followed by [line] when the text ends with a
    hyphen, and to the text, a space and [line] otherwise; the hyphen stays:
    adding "inter-" then "national" to a fresh Paragraph yields
    "inter-national", and adding "hello" then "world" yields "hello world". *)
Theorem paragraph_add (p : Paragraph.t) (line : string) :
  add_rule p line
  /\ Paragraph.text
       (Paragraph.add (Paragraph.add Paragraph.__init__ "inter-") "national")
     = "inter-national"
  /\ Paragraph.text
       (Paragraph.add (Paragraph.add Paragraph.__init__ "hello") "world")
     = "hello world".
Proof.
  split; [| split; reflexivity].
  unfold add_rule, Paragraph.text, Paragraph.add, Paragraph.empty. simpl.
  split; [| split].
  - intros ->. reflexivity.
  - intros Hne Hend. apply endswith_iff in Hend. rewrite Hend.
    destruct (Paragraph._text p); [contradiction Hne |]; reflexivity.
  - intros Hne Hend.
    destruct (endswith (Paragraph._text p) "-") eqn:E.
    + apply endswith_iff in E. contradiction.
    + destruct (Paragraph._text p); [contradiction Hne |]; reflexivity.
Qed.

(** C6, as stated, fails on its example: "inter-" then "national" does not
    yield "international". *)
Lemma paragraph_add_keeps_hyphen :
  Paragraph.text
    (Paragraph.add (Paragraph.add Paragraph.__init__ "inter-") "national")
  <> "international".
Proof. vm_compute. discriminate. Qed.

(** ** The classification of a line *)

(** C8: [_is_last] returns a pair of booleans for every line, next line or
    none, position and state of the metrics, and raises nothing: [avg] of a
    Metric with no value is [0] and so is [dev] of an empty sample. *)
Theorem is_last_never_raises :
  (forall self line next_line is_first,
      exists is_last certain,
        Joiner._is_last self line next_line is_first = Ok (is_last, certain))
  /\ (forall m, Metric.count m = 0%N -> Metric.avg m = Ok 0%float)
  /\ (forall m, Metric.count m = 0%N -> Metric._values m = [] ->
                Metric.dev m = Ok 0%float).
Proof.
  split; [exact _is_last_total | split].
  - intros m H. unfold Metric.avg. rewrite H. reflexivity.
  - intros m H Hv. unfold Metric.dev, Metric.avg. rewrite H, Hv. reflexivity.
Qed.




(** C4: for every call of [_is_last] with a next line, when the middle-line
    average exceeds the first-line average by more than twice the larger
    deviation and the next line is longer than the mean of the two averages,
    the result is [(false, true)], whatever the line ends with. *)
Theorem is_last_next_too_long (self : Joiner.t) (line s : string)
    (is_first : bool) (first middle dev_first dev_middle : float) :
  Metric.avg (Joiner._first self) = Ok first ->
  Metric.avg (Joiner._middle self) = Ok middle ->
  Metric.dev (Joiner._first self) = Ok dev_first ->
  Metric.dev (Joiner._middle self) = Ok dev_middle ->
  gtb (middle - first)%float (2 * py_max dev_first dev_middle)%float = true ->
  gtb (int_to_float (len s)) ((middle + first) / 2)%float = true ->
  Joiner._is_last self line (Some s) is_first = Ok (false, true).
Proof.
  intros Hf Hm Hdf Hdm Hgap Hnext.
  destruct (str_not s) eqn:Hs.
  - (* an empty next line is never longer than the threshold *)
    apply str_not_true in Hs. subst s. exfalso.
    destruct (Metric_avg_total (Joiner._first self)) as [a [Ha Hna]].
    destruct (Metric_avg_total (Joiner._middle self)) as [b [Hb Hnb]].
    rewrite Hf in Ha. rewrite Hm in Hb.
    injection Ha as <-. injection Hb as <-.
    assert (Hmt : nonneg ((middle + first) / 2)%float)
      by (apply nonneg_div; [apply nonneg_add; assumption | exact nonneg_two]).
    apply nonneg_not_ltb_zero in Hmt.
    change (int_to_float (len "")) with 0%float in Hnext.
    unfold gtb in Hnext. congruence.
  - rewrite (_is_last_unfold self line s is_first _ _ _ _ Hs Hf Hm Hdf Hdm).
    rewrite Hgap, Hnext. reflexivity.
Qed.

Lemma is_last_next_too_long_witness :
  Joiner._is_last sample_joiner "The garden" (Some "was under water then")
    true
  = Ok (false, true).
Proof.
  apply (is_last_next_too_long sample_joiner "The garden"
           "was under water then" true 10%float 20%float 0%float 0%float);
    vm_compute; reflexivity.
Defined.

(** ** Passes *)

Lemma counts_le_refl (s : Joiner.t) : counts_le s s.
Proof. split; apply N.le_refl. Qed.

Lemma counts_le_trans (s1 s2 s3 : Joiner.t) :
  counts_le s1 s2 -> counts_le s2 s3 -> counts_le s1 s3.
Proof.
  intros [H1 H2] [H3 H4]. split; eapply N.le_trans; eassumption.
Qed.

Lemma body_step_counts (self : Joiner.t) (p : Paragraph.t) (line : string)
    (next_line : option string) (out : list Paragraph.t) (p' : Paragraph.t)
    (self' : Joiner.t) :
  body_step self p line next_line (out, p', self') -> counts_le self self'.
Proof.
  intros H. inversion H; subst; unfold counts_le; simpl; lia.
Qed.

Lemma __iter___counts (self : Joiner.t) (out : list Paragraph.t)
    (self' : Joiner.t) :
  Joiner.__iter__ self = Ok (out, self') -> counts_le self self'.
Proof.
  intros H.
  apply (__iter___invariant (fun _ => True) (fun _ => True) counts_le
           counts_le_refl counts_le_trans) in H; [apply H | | exact I].
  intros s p line nl o p' s' _ Hstep.
  split; [exact I | split].
  - apply Forall_forall. intros; exact I.
  - eapply body_step_counts. exact Hstep.
Qed.

Lemma repeat_pass_counts (n : nat) (self : Joiner.t) :
  exists self', Joiner.repeat_pass n self = Ok self' /\ counts_le self self'.
Proof.
  revert self. induction n as [| n IH]; intros self; simpl.
  - exists self. split; [reflexivity | apply counts_le_refl].
  - destruct (__iter___total self) as [out [s1 H1]].
    rewrite H1. cbn [bind].
    destruct (IH s1) as [s2 [H2 Hle]].
    exists s2. split; [exact H2 |].
    eapply counts_le_trans; [eapply __iter___counts; exact H1 | exact Hle].
Qed.

(** C7: [iterate(0)] returns the joiner as it was, metrics included; and
    [iterate(k)], for every [k], completes and leaves neither metric with a
    smaller [count] than before. *)
Theorem iterate_counts (self : Joiner.t) :
  Joiner.iterate self 0 = Ok self
  /\ forall k : Z,
       exists self',
         Joiner.iterate self k = Ok self'
         /\ (Metric.count (Joiner._first self)
             <= Metric.count (Joiner._first self'))%N
         /\ (Metric.count (Joiner._middle self)
             <= Metric.count (Joiner._middle self'))%N.
Proof.
  split; [reflexivity |].
  intros k. unfold Joiner.iterate.
  destruct (repeat_pass_counts (Z.to_nat k) self) as [self' [H [H1 H2]]].
  exists self'. auto.
Qed.

Lemma Paragraph_add_text_not_empty (p : Paragraph.t) (line : string) :
  str_not line = false -> Paragraph.text (Paragraph.add p line) <> "".
Proof.
  intros H Heq. apply (Paragraph_add_not_empty p) in H.
  unfold Paragraph.empty in H. unfold Paragraph.text in Heq.
  rewrite Heq in H. discriminate H.
Qed.

(** C10: every Paragraph that a pass yields with an empty text has
    [uncertain = false]; an uncertain paragraph holds at least one line. *)
Theorem empty_paragraphs_are_certain (self : Joiner.t) :
  exists out self',
    Joiner.__iter__ self = Ok (out, self')
    /\ Forall (fun q => Paragraph.text q = "" ->
                        Paragraph.uncertain q = false) out
    /\ Forall (fun q => Paragraph.uncertain q = true ->
                        Paragraph.text q <> "") out.
Proof.
  destruct (__iter___total self) as [out [self' H]].
  exists out, self'. split; [exact H |].
  assert (Hall : Forall (fun q => Paragraph.text q = "" ->
                                  Paragraph.uncertain q = false) out).
  { apply (__iter___invariant
             (fun p => Paragraph.uncertain p = false)
             (fun q => Paragraph.text q = "" -> Paragraph.uncertain q = false)
             (fun _ _ => True)) in H; [apply H | auto | auto | | reflexivity].
    intros s p line nl o p' s' Hp Hstep.
    inversion Hstep; subst; (split; [| split; [| exact I]]);
      try reflexivity; try exact Hp; repeat constructor; auto.
    intros Htext. exfalso.
    apply (Paragraph_add_text_not_empty p line); [assumption | exact Htext]. }
  split; [exact Hall |].
  apply Forall_forall. intros q Hq Hunc Htext.
  rewrite Forall_forall in Hall. rewrite (Hall q Hq Htext) in Hunc.
  discriminate Hunc.
Qed.

Lemma last_cons_default {A : Type} (a d : A) (l : list A) :
  last (a :: l) d = last l a.
Proof.
  revert a d. induction l as [| b l IH]; intros a d; [reflexivity |].
  change (last (a :: b :: l) d) with (last (b :: l) d).
  rewrite (IH b d), (IH b a). reflexivity.
Qed.

Lemma last_map_strip (iterator : list string) (l : string) :
  last (map strip iterator) (strip l) = strip (last iterator l).
Proof.
  revert l. induction iterator as [| x it IH]; intros l; [reflexivity |].
  cbn [map]. rewrite !last_cons_default. apply IH.
Qed.

Lemma last_In {A : Type} (l : list A) (a : A) : In (last l a) (a :: l).
Proof.
  revert a. induction l as [| x l IH]; intros a.
  - left. reflexivity.
  - rewrite last_cons_default. right. apply IH.
Qed.

(** The last paragraph of the loop is certain, and when the last line is not
    blank it ends with that line. *)
Lemma loop_last (iterator : list string) (self : Joiner.t)
    (p : Paragraph.t) (line : string)
    (out : list Paragraph.t) (self' : Joiner.t) :
  Joiner.loop iterator self p line = Ok (out, self') ->
  exists out0 q,
    out = out0 ++ [q]
    /\ Paragraph.uncertain q = false
    /\ (str_not (last (map strip iterator) line) = false ->
        EndsWith (Paragraph.text q) (last (map strip iterator) line)).
Proof.
  revert self p line out self'.
  induction iterator as [| l iterator IH]; intros self p line out self' H.
  - apply loop_nil_inv in H. destruct H as [p' Hstep]. simpl.
    inversion Hstep as [Hl Hp | Hl Hp | c Hl Hlast | c Hl Hlast Hp
                        | c Hl Hlast Hp]; subst.
    + exists [p], Paragraph.__init__. repeat split. congruence.
    + exists [], Paragraph.__init__. repeat split. congruence.
    + rewrite _is_last_no_next in Hlast by reflexivity.
      injection Hlast as <-.
      eexists [], _. repeat split. intros _. apply Paragraph_add_EndsWith.
    + rewrite _is_last_no_next in Hlast by reflexivity. discriminate Hlast.
    + rewrite _is_last_no_next in Hlast by reflexivity. discriminate Hlast.
  - apply loop_cons_inv in H.
    destruct H as [o1 [p' [s' [o2 [_ [Hloop ->]]]]]].
    destruct (IH _ _ _ _ _ Hloop) as [out0 [q [-> [Hq Hend]]]].
    exists (o1 ++ out0), q. rewrite app_assoc.
    cbn [map]. rewrite last_cons_default. repeat split; assumption.
Qed.

(** C2: for every non-empty sequence of lines none of which is blank, the
    last Paragraph of a pass has [uncertain = false] and ends with the last
    line, because a line with no next line is classified [(true, true)]
    whatever the metrics hold. *)
Theorem last_paragraph_is_certain (self : Joiner.t) :
  Joiner.lines self <> [] ->
  Forall (fun l => ~ blank l) (Joiner.lines self) ->
  (exists out q self',
      Joiner.__iter__ self = Ok (out ++ [q], self')
      /\ Paragraph.uncertain q = false
      /\ EndsWith (Paragraph.text q) (strip (last (Joiner.lines self) "")))
  /\ (forall line is_first,
         Joiner._is_last self line None is_first = Ok (true, true)).
Proof.
  intros Hne Hnb. split; [| intros; apply _is_last_no_next; reflexivity].
  unfold Joiner.__iter__.
  destruct (Joiner.lines self) as [| l iterator];
    [exfalso; apply Hne; reflexivity |].
  destruct (loop_total iterator self Paragraph.__init__ (strip l))
    as [out [self' H]].
  destruct (loop_last _ _ _ _ _ _ H) as [out0 [q [-> [Hq Hend]]]].
  exists out0, q, self'. split; [exact H | split; [exact Hq |]].
  rewrite last_cons_default.
  rewrite last_map_strip in Hend. apply Hend.
  rewrite Forall_forall in Hnb. specialize (Hnb _ (last_In iterator l)).
  unfold blank in Hnb.
  destruct (strip (last iterator l)); [contradiction Hnb |]; reflexivity.
Qed.

Lemma last_paragraph_is_certain_witness :
  (exists out q self',
      Joiner.__iter__ (Joiner.__init__ ["hello"; "world"])
      = Ok (out ++ [q], self')
      /\ Paragraph.uncertain q = false
      /\ EndsWith (Paragraph.text q) "world")
  /\ (forall line is_first,
         Joiner._is_last (Joiner.__init__ ["hello"; "world"]) line None
           is_first
         = Ok (true, true)).
Proof.
  apply (last_paragraph_is_certain (Joiner.__init__ ["hello"; "world"])).
  - discriminate.
  - repeat constructor; vm_compute; discriminate.
Defined.

(** ** Blank lines *)

Lemma count_empty_app (o1 o2 : list Paragraph.t) :
  count_empty (o1 ++ o2) = count_empty o1 + count_empty o2.
Proof.
  unfold count_empty. rewrite filter_app, length_app. reflexivity.
Qed.

(** When the loop never meets a blank line with a paragraph under
    construction, it yields two empty paragraphs for each blank line. *)
Lemma loop_count_empty (iterator : list string) (self : Joiner.t)
    (p : Paragraph.t) (line : string)
    (out : list Paragraph.t) (self' : Joiner.t) :
  (str_not line = true -> Paragraph.empty p = true) ->
  Joiner.loop iterator self p line = Ok (out, self') ->
  count_empty out
  = 2 * List.length (filter str_not (line :: map strip iterator)).
Proof.
  revert self p line out self'.
  induction iterator as [| l iterator IH]; intros self p line out self' Hinv H.
  - apply loop_nil_inv in H. destruct H as [p' Hstep].
    inversion Hstep as [Hl Hp | Hl Hp | c Hl Hlast | c Hl Hlast Hp
                        | c Hl Hlast Hp]; subst;
      cbn [map filter]; rewrite Hl; unfold count_empty; cbn [filter].
    + rewrite Hp. reflexivity.
    + rewrite (Hinv Hl) in Hp. discriminate Hp.
    + change (Paragraph.empty (Paragraph.set_uncertain ?q _))
        with (Paragraph.empty q).
      rewrite (Paragraph_add_not_empty p line Hl). reflexivity.
    + reflexivity.
    + reflexivity.
  - apply loop_cons_inv in H.
    destruct H as [o1 [p' [s' [o2 [Hstep [Hloop ->]]]]]].
    rewrite count_empty_app.
    assert (Hnext : str_not (strip l) = true ->
                    forall f,
                      Joiner._is_last self line (Some (strip l)) f
                      = Ok (true, true))
      by (intros Hb f; apply _is_last_no_next; exact Hb).
    inversion Hstep as [Hl Hp | Hl Hp | c Hl Hlast | c Hl Hlast Hp
                        | c Hl Hlast Hp]; subst.
    + rewrite (IH _ Paragraph.__init__ _ _ _ (fun _ => eq_refl) Hloop).
      change (map strip (l :: iterator)) with (strip l :: map strip iterator).
      cbn [filter] in *. rewrite Hl. unfold count_empty. cbn [filter].
      rewrite Hp. cbn [Paragraph.empty Paragraph.__init__ Paragraph._text
                       str_not List.length].
      lia.
    + rewrite (Hinv Hl) in Hp. discriminate Hp.
    + rewrite (IH _ Paragraph.__init__ _ _ _ (fun _ => eq_refl) Hloop).
      change (map strip (l :: iterator)) with (strip l :: map strip iterator).
      cbn [filter] in *. rewrite Hl. unfold count_empty. cbn [filter].
      change (Paragraph.empty (Paragraph.set_uncertain ?q _))
        with (Paragraph.empty q).
      rewrite (Paragraph_add_not_empty p line Hl). reflexivity.
    + assert (Hinv' : str_not (strip l) = true ->
                      Paragraph.empty (Paragraph.add p line) = true).
      { intros Hb. rewrite (Hnext Hb) in Hlast. discriminate Hlast. }
      rewrite (IH _ _ _ _ _ Hinv' Hloop).
      change (map strip (l :: iterator)) with (strip l :: map strip iterator).
      cbn [filter] in *. rewrite Hl. reflexivity.
    + assert (Hinv' : str_not (strip l) = true ->
                      Paragraph.empty (Paragraph.add p line) = true).
      { intros Hb. rewrite (Hnext Hb) in Hlast. discriminate Hlast. }
      rewrite (IH _ _ _ _ _ Hinv' Hloop).
      change (map strip (l :: iterator)) with (strip l :: map strip iterator).
      cbn [filter] in *. rewrite Hl. reflexivity.
Qed.

Lemma filter_map_strip (ls : list string) :
  List.length (filter str_not (map strip ls)) = count_blank ls.
Proof.
  unfold count_blank. induction ls as [| l ls IH]; [reflexivity |].
  cbn [map filter]. destruct (str_not (strip l)); cbn [List.length];
    rewrite IH; reflexivity.
Qed.

(** Every pass yields two empty paragraphs for each blank line: the empty
    paragraph under construction, flushed, and the marker of the line. *)
Lemma blank_lines_yield_two_each (self : Joiner.t) :
  exists out self',
    Joiner.__iter__ self = Ok (out, self')
    /\ count_empty out = 2 * count_blank (Joiner.lines self).
Proof.
  destruct (__iter___total self) as [out [self' H]].
  exists out, self'. split; [exact H |].
  unfold Joiner.__iter__ in H.
  destruct (Joiner.lines self) as [| l iterator].
  - injection H as <- _. reflexivity.
  - rewrite <- filter_map_strip.
    apply (loop_count_empty _ _ Paragraph.__init__ _ _ _ (fun _ => eq_refl) H).
Qed.

(** C1, on the code: one pass of a fresh Joiner over "hello", a blank line
    and "world" yields four paragraphs, two of them empty. *)
Theorem blank_line_example :
  exists out self',
    Joiner.__iter__ (Joiner.__init__ ["hello"; ""; "world"]) = Ok (out, self')
    /\ texts out = ["hello"; ""; ""; "world"].
Proof.
  eexists. eexists. split; [vm_compute; reflexivity | reflexivity].
Qed.

(** ** A blank next line *)

Lemma body_no_next (self : Joiner.t) (p : Paragraph.t) (line : string)
    (next_line : option string) :
  str_not line = false -> Joiner.no_next next_line = true ->
  Joiner.body self p line next_line
  = Ok ([Paragraph.set_uncertain (Paragraph.add p line) false],
        Paragraph.__init__, self).
Proof.
  intros Hl Hn. unfold Joiner.body.
  rewrite Hl, (_is_last_no_next _ _ _ _ Hn). reflexivity.
Qed.

(** A line that is not blank, before a blank line, ends the loop's turn as
    the end of input does: the loop over the lines up to it, then the loop
    from the blank line with a fresh paragraph. *)
Lemma loop_blank_cut (pre : list string) (b : string) (post : list string)
    (self : Joiner.t) (p : Paragraph.t) (line : string) :
  blank b -> str_not (last (map strip pre) line) = false ->
  Joiner.loop (pre ++ b :: post) self p line
  = '(o1, s1) <- Joiner.loop pre self p line ;;
    '(o2, s2) <- Joiner.loop post s1 Paragraph.__init__ "" ;;
    Ok (o1 ++ o2, s2).
Proof.
  intros Hb. revert self p line.
  induction pre as [| x pre IH]; intros self p line Hlast.
  - cbn [map last] in Hlast. cbn [app].
    assert (Hn : Joiner.no_next (Some (strip b)) = true)
      by (unfold blank in Hb; rewrite Hb; reflexivity).
    rewrite (loop_cons _ _ _ _ _ _ _ _ (body_no_next self p line _ Hlast Hn)).
    rewrite (loop_nil _ _ _ _ _ _ (body_no_next self p line None Hlast eq_refl)).
    unfold blank in Hb. rewrite Hb. reflexivity.
  - cbn [app].
    destruct (body_total self p line (Some (strip x)))
      as [[[o p'] s'] [Hbody _]].
    rewrite !(loop_cons _ _ _ _ _ _ _ _ Hbody).
    cbn [map] in Hlast. rewrite last_cons_default in Hlast.
    rewrite (IH s' p' (strip x) Hlast).
    destruct (Joiner.loop pre s' p' (strip x)) as [[o1 s1] | e];
      [| reflexivity].
    cbn [bind].
    destruct (Joiner.loop post s1 Paragraph.__init__ "") as [[o2 s2] | e];
      [| reflexivity].
    cbn [bind]. rewrite app_assoc. reflexivity.
Qed.

(** The loop does not read the lines the joiner holds. *)
Lemma body_with_lines (self : Joiner.t) (ls : list string) (p : Paragraph.t)
    (line : string) (next_line : option string) :
  Joiner.body (with_lines self ls) p line next_line
  = '(out, p', self') <- Joiner.body self p line next_line ;;
    Ok (out, p', with_lines self' ls).
Proof.
  unfold Joiner.body.
  change (Joiner._is_last (with_lines self ls) line next_line
            (Paragraph.empty p))
    with (Joiner._is_last self line next_line (Paragraph.empty p)).
  destruct (str_not line).
  - destruct (Paragraph.empty p); reflexivity.
  - destruct (Joiner._is_last self line next_line (Paragraph.empty p))
      as [[[ | ] certain] | e]; cbn [bind]; try reflexivity.
    destruct (Paragraph.empty p); reflexivity.
Qed.

Lemma loop_with_lines (iterator : list string) (self : Joiner.t)
    (ls : list string) (p : Paragraph.t) (line : string) :
  Joiner.loop iterator (with_lines self ls) p line
  = '(out, self') <- Joiner.loop iterator self p line ;;
    Ok (out, with_lines self' ls).
Proof.
  revert self p line. induction iterator as [| l iterator IH];
    intros self p line; cbn [Joiner.loop]; rewrite body_with_lines.
  - destruct (Joiner.body self p line None) as [[[o p'] s'] | e];
      reflexivity.
  - destruct (Joiner.body self p line (Some (strip l)))
      as [[[o p'] s'] | e]; [| reflexivity].
    cbn [bind]. rewrite IH.
    destruct (Joiner.loop iterator s' p' (strip l)) as [[o2 s2] | e];
      reflexivity.
Qed.

Lemma snoc_uncons (pre : list string) (l : string) :
  exists x rest,
    pre ++ [l] = x :: rest
    /\ last (map strip rest) (strip x) = strip l.
Proof.
  destruct pre as [| x pre].
  - exists l, []. split; reflexivity.
  - exists x, (pre ++ [l]). split; [reflexivity |].
    rewrite map_app. cbn [map]. apply last_last.
Qed.

(** C9: [_is_last] with an empty next line returns [(true, true)], as at the
    end of input; so in every pass a line that is not blank and stands before
    a blank line closes its paragraph, surely: the pass yields, up to and
    including that paragraph, what it yields when the input ends at the
    line, whatever the metrics hold. *)
Theorem blank_next_line_closes (self : Joiner.t) (pre : list string)
    (l b : string) (post : list string) :
  Joiner.lines self = pre ++ l :: b :: post ->
  ~ blank l -> blank b ->
  (forall line is_first,
      Joiner._is_last self line (Some "") is_first = Ok (true, true))
  /\ exists out q outs self1 self',
       Joiner.__iter__ (with_lines self (pre ++ [l])) = Ok (out ++ [q], self1)
       /\ Joiner.__iter__ self = Ok (out ++ q :: outs, self')
       /\ Paragraph.uncertain q = false
       /\ EndsWith (Paragraph.text q) (strip l).
Proof.
  intros Hlines Hl Hb. split; [reflexivity |].
  destruct (snoc_uncons pre l) as [x [rest [Hsnoc Hlast]]].
  assert (Hlines' : Joiner.lines self = x :: rest ++ b :: post).
  { rewrite Hlines.
    change (l :: b :: post) with ([l] ++ b :: post).
    rewrite app_assoc, Hsnoc. reflexivity. }
  assert (Hnb : str_not (last (map strip rest) (strip x)) = false).
  { rewrite Hlast. unfold blank in Hl.
    destruct (strip l); [exfalso; apply Hl; reflexivity | reflexivity]. }
  destruct (loop_total rest self Paragraph.__init__ (strip x))
    as [o1 [s1 H1]].
  destruct (loop_last _ _ _ _ _ _ H1) as [out [q [-> [Hq Hend]]]].
  destruct (loop_total post s1 Paragraph.__init__ "") as [o2 [s2 H2]].
  exists out, q, o2, (with_lines s1 (pre ++ [l])), s2.
  split; [| split; [| split]].
  - unfold Joiner.__iter__. cbn [with_lines Joiner.lines].
    rewrite Hsnoc at 1. rewrite loop_with_lines, H1. reflexivity.
  - unfold Joiner.__iter__. rewrite Hlines'.
    rewrite (loop_blank_cut rest b post self _ _ Hb Hnb), H1.
    cbn [bind]. rewrite H2. cbn [bind].
    rewrite <- app_assoc. reflexivity.
  - exact Hq.
  - rewrite <- Hlast. apply Hend. exact Hnb.
Qed.

Lemma blank_next_line_closes_witness :
  (forall line is_first,
      Joiner._is_last sample_joiner line (Some "") is_first = Ok (true, true))
  /\ exists out q outs self1 self',
       Joiner.__iter__ (with_lines sample_joiner ["It rained all night."])
       = Ok (out ++ [q], self1)
       /\ Joiner.__iter__ sample_joiner = Ok (out ++ q :: outs, self')
       /\ Paragraph.uncertain q = false
       /\ EndsWith (Paragraph.text q) "It rained all night.".
Proof.
  apply (blank_next_line_closes sample_joiner [] "It rained all night." ""
           ["The garden"; "was under water then"; "by morning"]).
  - reflexivity.
  - vm_compute. discriminate.
  - reflexivity.
Defined.

(** * Further properties of the code *)

(** ** What a pass does to the joiner *)

(** A property of the joiner that every pass respects holds across
    [iterate]. *)
Section PassInvariant.

Variable T : Joiner.t -> Joiner.t -> Prop.

Hypothesis T_refl : forall s, T s s.
Hypothesis T_trans : forall s1 s2 s3, T s1 s2 -> T s2 s3 -> T s1 s3.

Hypothesis step_T :
  forall self p line next_line out p' self',
    body_step self p line next_line (out, p', self') -> T self self'.

Lemma __iter___respects (self : Joiner.t) :
  exists out self', Joiner.__iter__ self = Ok (out, self') /\ T self self'.
Proof.
  destruct (__iter___total self) as [out [self' H]].
  exists out, self'. split; [exact H |].
  apply (__iter___invariant (fun _ => True) (fun _ => True) T
           T_refl T_trans) in H; [apply H | | exact I].
  intros s p line nl o p' s' _ Hstep.
  split; [exact I | split].
  - apply Forall_forall. intros; exact I.
  - eapply step_T. exact Hstep.
Qed.

Lemma repeat_pass_respects (n : nat) (self : Joiner.t) :
  exists self', Joiner.repeat_pass n self = Ok self' /\ T self self'.
Proof.
  revert self. induction n as [| n IH]; intros self; simpl.
  - exists self. split; [reflexivity | apply T_refl].
  - destruct (__iter___respects self) as [out [s1 [H1 HT1]]].
    rewrite H1. cbn [bind].
    destruct (IH s1) as [s2 [H2 HT2]].
    exists s2. split; [exact H2 | eapply T_trans; eassumption].
Qed.

End PassInvariant.

Lemma fold_right_add_init (vs : list N) (a : N) :
  fold_right N.add a vs = (fold_right N.add 0 vs + a)%N.
Proof.
  induction vs as [| v vs IH]; simpl; [reflexivity | rewrite IH; lia].
Qed.

Lemma Metric_add_consistent (m : Metric.t) (value : N) :
  Metric_consistent m -> Metric_consistent (Metric.add m value).
Proof.
  intros [Hc Hs]. unfold Metric_consistent, Metric.add. simpl. split.
  - rewrite Hc, length_app. simpl. lia.
  - rewrite Hs, fold_right_app. simpl.
    rewrite (fold_right_add_init _ (value + 0)). lia.
Qed.

Lemma len_positive (line : string) : str_not line = false -> (0 < len line)%N.
Proof.
  destruct line; [discriminate |]. intros _. unfold len. simpl. lia.
Qed.

Lemma body_step_consistent (self : Joiner.t) (p : Paragraph.t)
    (line : string) (next_line : option string) (out : list Paragraph.t)
    (p' : Paragraph.t) (self' : Joiner.t) :
  body_step self p line next_line (out, p', self') ->
  Joiner_consistent self -> Joiner_consistent self'.
Proof.
  intros H Hok. pose proof Hok as [Hf [Hm [Hpf Hpm]]].
  assert (Hadd : forall vs, str_not line = false ->
                   Forall (fun v => (0 < v)%N) vs ->
                   Forall (fun v => (0 < v)%N) (vs ++ [len line])).
  { intros vs Hl Hvs. apply Forall_app. split; [exact Hvs |].
    constructor; [apply len_positive; exact Hl | constructor]. }
  inversion H; subst; try exact Hok; unfold Joiner_consistent; simpl.
  - split; [apply Metric_add_consistent; exact Hf |].
    split; [exact Hm |]. split; [apply Hadd; assumption | exact Hpm].
  - split; [exact Hf |].
    split; [apply Metric_add_consistent; exact Hm |].
    split; [exact Hpf | apply Hadd; assumption].
Qed.

(** X1: the metrics of a joiner stay consistent through passes: [count] is
    the number of stored values, [sum] is their sum, and every value is the
    length of a line that is not empty. *)
Theorem passes_keep_metrics_consistent (self : Joiner.t) :
  Joiner_consistent self ->
  (exists out self',
      Joiner.__iter__ self = Ok (out, self') /\ Joiner_consistent self')
  /\ (forall k : Z,
         exists self',
           Joiner.iterate self k = Ok self' /\ Joiner_consistent self').
Proof.
  intros Hok.
  pose (T := fun s s' : Joiner.t =>
               Joiner_consistent s -> Joiner_consistent s').
  assert (Hrefl : forall s, T s s) by (intros s H; exact H).
  assert (Htrans : forall s1 s2 s3, T s1 s2 -> T s2 s3 -> T s1 s3)
    by (intros s1 s2 s3 H12 H23 H; apply H23, H12, H).
  assert (Hstep : forall self p line next_line out p' self',
             body_step self p line next_line (out, p', self') -> T self self')
    by (intros s p line nl o p' s' H Hs;
        exact (body_step_consistent _ _ _ _ _ _ _ H Hs)).
  split.
  - destruct (__iter___respects T Hrefl Htrans Hstep self)
      as [out [self' [H HT]]].
    exists out, self'. split; [exact H | apply HT; exact Hok].
  - intros k. unfold Joiner.iterate.
    destruct (repeat_pass_respects T Hrefl Htrans Hstep (Z.to_nat k) self)
      as [self' [H HT]].
    exists self'. split; [exact H | apply HT; exact Hok].
Qed.

Lemma passes_keep_metrics_consistent_witness :
  (exists out self',
      Joiner.__iter__ sample_joiner = Ok (out, self')
      /\ Joiner_consistent self')
  /\ (forall k : Z,
         exists self',
           Joiner.iterate sample_joiner k = Ok self'
           /\ Joiner_consistent self').
Proof.
  apply (passes_keep_metrics_consistent sample_joiner).
  unfold Joiner_consistent, Metric_consistent. simpl.
  repeat split; repeat constructor.
Defined.

Lemma extends_refl (s : Joiner.t) : extends s s.
Proof.
  split; [reflexivity | split; exists []; symmetry; apply app_nil_r].
Qed.

Lemma extends_trans (s1 s2 s3 : Joiner.t) :
  extends s1 s2 -> extends s2 s3 -> extends s1 s3.
Proof.
  intros [Hl [[a Ha] [b Hb]]] [Hl' [[a' Ha'] [b' Hb']]].
  split; [congruence | split].
  - exists (a ++ a'). rewrite Ha', Ha, app_assoc. reflexivity.
  - exists (b ++ b'). rewrite Hb', Hb, app_assoc. reflexivity.
Qed.

Lemma body_step_extends (self : Joiner.t) (p : Paragraph.t) (line : string)
    (next_line : option string) (out : list Paragraph.t) (p' : Paragraph.t)
    (self' : Joiner.t) :
  body_step self p line next_line (out, p', self') -> extends self self'.
Proof.
  intros H. inversion H; subst; try apply extends_refl;
    (split; [reflexivity | split]); simpl;
    try (exists []; symmetry; apply app_nil_r);
    eexists; reflexivity.
Qed.

(** X2: a pass, and [iterate] for any count, leave the lines of the joiner
    as they are and only append to the values of the two metrics: nothing a
    metric holds is removed or changed. *)
Theorem passes_only_append (self : Joiner.t) :
  (exists out self',
      Joiner.__iter__ self = Ok (out, self') /\ extends self self')
  /\ (forall k : Z,
         exists self', Joiner.iterate self k = Ok self' /\ extends self self').
Proof.
  split.
  - apply (__iter___respects extends extends_refl extends_trans
             body_step_extends).
  - intros k. unfold Joiner.iterate.
    apply (repeat_pass_respects extends extends_refl extends_trans
             body_step_extends).
Qed.

(** ** How [iterate] composes *)

Lemma repeat_pass_add (a b : nat) (self : Joiner.t) :
  Joiner.repeat_pass (a + b) self
  = s <- Joiner.repeat_pass a self ;; Joiner.repeat_pass b s.
Proof.
  revert self. induction a as [| a IH]; intros self; simpl; [reflexivity |].
  destruct (Joiner.__iter__ self) as [[out s1] | e]; [| reflexivity].
  cbn [bind]. apply IH.
Qed.

(** X3: warm-up passes add up: [iterate(a)] followed by [iterate(b)] leaves
    the joiner as [iterate(a + b)] does, for counts that are not negative. *)
Theorem iterate_add (self : Joiner.t) (a b : Z) :
  (0 <= a)%Z -> (0 <= b)%Z ->
  Joiner.iterate self (a + b)
  = s <- Joiner.iterate self a ;; Joiner.iterate s b.
Proof.
  intros Ha Hb. unfold Joiner.iterate.
  rewrite Z2Nat.inj_add by assumption. apply repeat_pass_add.
Qed.

Lemma iterate_add_witness :
  Joiner.iterate sample_joiner (1 + 2)
  = s <- Joiner.iterate sample_joiner 1 ;; Joiner.iterate s 2.
Proof. apply (iterate_add sample_joiner 1 2); lia. Defined.

Lemma iterate_nonpositive (self : Joiner.t) (k : Z) :
  (k <= 0)%Z -> Joiner.iterate self k = Ok self.
Proof.
  intros Hk. unfold Joiner.iterate.
  replace (Z.to_nat k) with 0%nat by lia. reflexivity.
Qed.

(** ** What a pass yields *)

Lemma filter_map_strip_nonblank (ls : list string) :
  List.length (filter (fun l => negb (str_not l)) (map strip ls))
  = count_nonblank ls.
Proof.
  unfold count_nonblank. induction ls as [| l ls IH]; [reflexivity |].
  cbn [map filter]. destruct (str_not (strip l)); cbn [negb List.length];
    rewrite IH; reflexivity.
Qed.

(** Every line is answered for: a blank line by two paragraphs, another line
    by the paragraph it closes or by the value it leaves in a metric. *)
Lemma loop_conservation (iterator : list string) (self : Joiner.t)
    (p : Paragraph.t) (line : string)
    (out : list Paragraph.t) (self' : Joiner.t) :
  (str_not line = true -> Paragraph.empty p = true) ->
  Joiner.loop iterator self p line = Ok (out, self') ->
  (N.of_nat (List.length out)
   + Metric.count (Joiner._first self') + Metric.count (Joiner._middle self')
   = N.of_nat
       (List.length (filter (fun l => negb (str_not l))
                       (line :: map strip iterator))
        + 2 * List.length (filter str_not (line :: map strip iterator)))
     + Metric.count (Joiner._first self) + Metric.count (Joiner._middle self))%N.
Proof.
  revert self p line out self'.
  induction iterator as [| l iterator IH]; intros self p line out self' Hinv H.
  - apply loop_nil_inv in H. destruct H as [p' Hstep].
    inversion Hstep as [Hl Hp | Hl Hp | c Hl Hlast | c Hl Hlast Hp
                        | c Hl Hlast Hp]; subst;
      try (rewrite _is_last_no_next in Hlast by reflexivity;
           discriminate Hlast);
      try (rewrite (Hinv Hl) in Hp; discriminate Hp);
      cbn [map filter]; rewrite Hl; cbn [negb List.length]; lia.
  - apply loop_cons_inv in H.
    destruct H as [o1 [p' [s' [o2 [Hstep [Hloop ->]]]]]].
    assert (Hnext : str_not (strip l) = true ->
                    forall f,
                      Joiner._is_last self line (Some (strip l)) f
                      = Ok (true, true))
      by (intros Hb f; apply _is_last_no_next; exact Hb).
    change (map strip (l :: iterator)) with (strip l :: map strip iterator).
    rewrite length_app.
    inversion Hstep as [Hl Hp | Hl Hp | c Hl Hlast | c Hl Hlast Hp
                        | c Hl Hlast Hp]; subst;
      try (rewrite (Hinv Hl) in Hp; discriminate Hp).
    + pose proof (IH _ Paragraph.__init__ _ _ _ (fun _ => eq_refl) Hloop)
        as Hrest.
      cbn [filter] in *. rewrite Hl. cbn [negb List.length] in *. lia.
    + pose proof (IH _ Paragraph.__init__ _ _ _ (fun _ => eq_refl) Hloop)
        as Hrest.
      cbn [filter] in *. rewrite Hl. cbn [negb List.length] in *. lia.
    + assert (Hinv' : str_not (strip l) = true ->
                      Paragraph.empty (Paragraph.add p line) = true).
      { intros Hb. rewrite (Hnext Hb) in Hlast. discriminate Hlast. }
      pose proof (IH _ _ _ _ _ Hinv' Hloop) as Hrest.
      cbn [filter] in *. rewrite Hl.
      cbn [negb List.length Joiner._first Joiner._middle Metric.add
             Metric.count] in *.
      lia.
    + assert (Hinv' : str_not (strip l) = true ->
                      Paragraph.empty (Paragraph.add p line) = true).
      { intros Hb. rewrite (Hnext Hb) in Hlast. discriminate Hlast. }
      pose proof (IH _ _ _ _ _ Hinv' Hloop) as Hrest.
      cbn [filter] in *. rewrite Hl.
      cbn [negb List.length Joiner._first Joiner._middle Metric.add
             Metric.count] in *.
      lia.
Qed.

Lemma length_filter_split {A : Type} (f : A -> bool) (l : list A) :
  List.length l
  = List.length (filter f l)
    + List.length (filter (fun x => negb (f x)) l).
Proof.
  induction l as [| x l IH]; [reflexivity |].
  cbn [filter]. destruct (f x); cbn [negb List.length]; lia.
Qed.

(** X4: in every pass each line that is not blank is answered for exactly
    once, by the paragraph it closes or by the value it leaves in one of the
    two metrics: the number of paragraphs with text that the pass yields,
    plus the number of values it adds to the metrics, is the number of lines
    that are not blank.  So a pass yields at most as many paragraphs with
    text as there are such lines. *)
Theorem pass_accounts_for_lines (self : Joiner.t) :
  exists out self',
    Joiner.__iter__ self = Ok (out, self')
    /\ (N.of_nat (count_with_text out)
        + Metric.count (Joiner._first self')
        + Metric.count (Joiner._middle self')
        = N.of_nat (count_nonblank (Joiner.lines self))
          + Metric.count (Joiner._first self)
          + Metric.count (Joiner._middle self))%N
    /\ count_with_text out <= count_nonblank (Joiner.lines self).
Proof.
  destruct (__iter___total self) as [out [self' H]].
  exists out, self'. split; [exact H |].
  assert (Heq : (N.of_nat (count_with_text out)
        + Metric.count (Joiner._first self')
        + Metric.count (Joiner._middle self')
        = N.of_nat (count_nonblank (Joiner.lines self))
          + Metric.count (Joiner._first self)
          + Metric.count (Joiner._middle self))%N).
  { pose proof H as H'. unfold Joiner.__iter__ in H'.
    destruct (Joiner.lines self) as [| l iterator].
    - injection H' as <- <-. simpl. lia.
    - pose proof (loop_conservation _ _ Paragraph.__init__ _ _ _
                    (fun _ => eq_refl) H') as Hall.
      pose proof (loop_count_empty _ _ Paragraph.__init__ _ _ _
                    (fun _ => eq_refl) H') as Hempty.
      pose proof (length_filter_split Paragraph.empty out) as Hsplit.
      fold (count_empty out) in Hsplit. fold (count_with_text out) in Hsplit.
      rewrite <- filter_map_strip_nonblank.
      change (map strip (l :: iterator)) with (strip l :: map strip iterator).
      lia. }
  split; [exact Heq |].
  destruct (__iter___counts _ _ _ H) as [Hf Hm]. lia.
Qed.

Lemma join_snoc (p : Paragraph.t) (g : list string) (line : string) :
  Paragraph.text p = join g ->
  Paragraph.text (Paragraph.add p line) = join (g ++ [line]).
Proof.
  unfold join. rewrite fold_left_app. cbn [fold_left].
  unfold Paragraph.text, Paragraph.add, Paragraph.empty. cbn.
  intros ->. reflexivity.
Qed.

(** The texts of the paragraphs the loop yields are built from consecutive
    groups of its lines. *)
Lemma loop_partition (iterator : list string) (self : Joiner.t)
    (p : Paragraph.t) (line : string) (g0 : list string)
    (out : list Paragraph.t) (self' : Joiner.t) :
  Paragraph.text p = join g0 ->
  (str_not line = true -> g0 = []) ->
  Joiner.loop iterator self p line = Ok (out, self') ->
  exists groups,
    texts out = map join groups
    /\ List.concat groups = g0 ++ nonempty_lines (line :: map strip iterator).
Proof.
  revert self p line g0 out self'.
  induction iterator as [| l iterator IH];
    intros self p line g0 out self' Hp Hinv H.
  - apply loop_nil_inv in H. destruct H as [p' Hstep].
    inversion Hstep as [Hl He | Hl He | c Hl Hlast | c Hl Hlast He
                        | c Hl Hlast He]; subst;
      try (rewrite _is_last_no_next in Hlast by reflexivity;
           discriminate Hlast);
      unfold nonempty_lines; cbn [map filter]; rewrite Hl; cbn [negb].
    + rewrite (Hinv Hl) in *. exists [[]; []].
      split; [cbn [texts map]; rewrite Hp; reflexivity | reflexivity].
    + rewrite (Hinv Hl) in Hp. unfold Paragraph.empty in He.
      unfold Paragraph.text in Hp. rewrite Hp in He. discriminate He.
    + exists [g0 ++ [line]]. split.
      * cbn [texts map]. f_equal. apply join_snoc. exact Hp.
      * cbn [List.concat]. rewrite app_nil_r. reflexivity.
  - apply loop_cons_inv in H.
    destruct H as [o1 [p' [s' [o2 [Hstep [Hloop ->]]]]]].
    assert (Hnext : str_not (strip l) = true ->
                    forall f,
                      Joiner._is_last self line (Some (strip l)) f
                      = Ok (true, true))
      by (intros Hb f; apply _is_last_no_next; exact Hb).
    change (map strip (l :: iterator)) with (strip l :: map strip iterator).
    unfold texts. rewrite map_app. fold (texts o1) (texts o2).
    inversion Hstep as [Hl He | Hl He | c Hl Hlast | c Hl Hlast He
                        | c Hl Hlast He]; subst;
      unfold nonempty_lines; cbn [filter]; rewrite Hl; cbn [negb];
      fold (nonempty_lines (strip l :: map strip iterator)).
    + destruct (IH _ Paragraph.__init__ _ [] _ _ eq_refl (fun _ => eq_refl)
                  Hloop) as [groups [Ht Hc]].
      rewrite (Hinv Hl) in *. exists ([] :: [] :: groups). split.
      * cbn [texts map app]. rewrite Hp, Ht. reflexivity.
      * cbn [List.concat app]. exact Hc.
    + rewrite (Hinv Hl) in Hp. unfold Paragraph.empty in He.
      unfold Paragraph.text in Hp. rewrite Hp in He. discriminate He.
    + destruct (IH _ Paragraph.__init__ _ [] _ _ eq_refl (fun _ => eq_refl)
                  Hloop) as [groups [Ht Hc]].
      exists ((g0 ++ [line]) :: groups). split.
      * cbn [texts map app]. rewrite Ht. f_equal. apply join_snoc. exact Hp.
      * cbn [List.concat]. rewrite Hc, <- app_assoc. reflexivity.
    + assert (Hinv' : str_not (strip l) = true -> g0 ++ [line] = []).
      { intros Hb. rewrite (Hnext Hb) in Hlast. discriminate Hlast. }
      destruct (IH _ _ _ _ _ _ (join_snoc _ _ line Hp) Hinv' Hloop)
        as [groups [Ht Hc]].
      exists groups. split; [exact Ht |].
      rewrite Hc, <- app_assoc. reflexivity.
    + assert (Hinv' : str_not (strip l) = true -> g0 ++ [line] = []).
      { intros Hb. rewrite (Hnext Hb) in Hlast. discriminate Hlast. }
      destruct (IH _ _ _ _ _ _ (join_snoc _ _ line Hp) Hinv' Hloop)
        as [groups [Ht Hc]].
      exists groups. split; [exact Ht |].
      rewrite Hc, <- app_assoc. reflexivity.
Qed.

(** X5: a pass loses no line, repeats none and keeps their order: the
    stripped lines that are not empty split into consecutive groups, and the
    texts of the paragraphs yielded are, in order, what [Paragraph.add]
    builds from each group (an empty group for each empty paragraph). *)
Theorem pass_partitions_lines (self : Joiner.t) :
  exists out self' groups,
    Joiner.__iter__ self = Ok (out, self')
    /\ texts out = map join groups
    /\ List.concat groups = nonempty_lines (map strip (Joiner.lines self)).
Proof.
  destruct (__iter___total self) as [out [self' H]].
  pose proof H as H'. unfold Joiner.__iter__ in H'.
  destruct (Joiner.lines self) as [| l iterator].
  - injection H' as <- _. exists [], self', []. repeat split. exact H.
  - destruct (loop_partition _ _ Paragraph.__init__ _ [] _ _ eq_refl
                (fun _ => eq_refl) H') as [groups [Ht Hc]].
    exists out, self', groups. repeat split; assumption.
Qed.

(** ** Where paragraphs end *)

Lemma ends_with_any_all_marks (line : string) :
  Joiner.ends_with_any line all_marks
  = Joiner.ends_with_any line Joiner.END_MARKS
    || Joiner.ends_with_any line Joiner.POSSIBLE_END_MARKS.
Proof. unfold Joiner.ends_with_any, all_marks. apply existsb_app. Qed.

(** The result of [_is_last] before a line that is not empty: last only at
    a mark, and never an uncertain "not last". *)
Lemma _is_last_marks (self : Joiner.t) (line s : string) (is_first : bool)
    (is_last certain : bool) :
  str_not s = false ->
  Joiner._is_last self line (Some s) is_first = Ok (is_last, certain) ->
  (is_last = true -> Joiner.ends_with_any line all_marks = true)
  /\ (certain = false -> is_last = true).
Proof.
  intros Hs.
  destruct (Metric_avg_total (Joiner._first self)) as [first [Hf _]].
  destruct (Metric_avg_total (Joiner._middle self)) as [middle [Hm _]].
  destruct (Metric_dev_total (Joiner._first self)) as [df Hdf].
  destruct (Metric_dev_total (Joiner._middle self)) as [dm Hdm].
  rewrite (_is_last_unfold self line s is_first _ _ _ _ Hs Hf Hm Hdf Hdm).
  rewrite ends_with_any_all_marks.
  fold all_marks. rewrite ends_with_any_all_marks.
  destruct (gtb _ (2 * _)%float).
  - destruct (gtb _ _).
    + intros Heq. injection Heq as <- <-. split; discriminate.
    + destruct (Joiner.ends_with_any line Joiner.END_MARKS).
      * intros Heq. injection Heq as <- _. split; reflexivity.
      * destruct (Joiner.ends_with_any line Joiner.POSSIBLE_END_MARKS);
          intros Heq; injection Heq as <- <-; split;
          try reflexivity; discriminate.
  - destruct (Joiner.ends_with_any line Joiner.END_MARKS).
    + intros Heq. injection Heq as <- _. split; reflexivity.
    + destruct (Joiner.ends_with_any line Joiner.POSSIBLE_END_MARKS);
        intros Heq; injection Heq as <- <-; split;
        try reflexivity; discriminate.
Qed.

(** X6: [_is_last] never answers "not last" with doubt, and it answers
    "last" only at the end of input, before an empty next line, or for a
    line that ends with an end mark or a possible end mark; in particular
    its doubt is always about such a mark. *)
Theorem is_last_only_at_marks (self : Joiner.t) (line : string)
    (next_line : option string) (is_first : bool) :
  exists is_last certain,
    Joiner._is_last self line next_line is_first = Ok (is_last, certain)
    /\ (certain = false -> is_last = true)
    /\ (certain = false -> Exists (EndsWith line) all_marks)
    /\ (is_last = true ->
        Joiner.no_next next_line = true
        \/ Exists (EndsWith line) all_marks).
Proof.
  destruct (_is_last_total self line next_line is_first)
    as [is_last [certain H]].
  exists is_last, certain. split; [exact H |].
  destruct (Joiner.no_next next_line) eqn:Hn.
  - rewrite (_is_last_no_next _ _ _ _ Hn) in H. injection H as <- <-.
    repeat split; try discriminate. left. reflexivity.
  - destruct next_line as [s |]; [| discriminate Hn]. simpl in Hn.
    destruct (_is_last_marks _ _ _ _ _ _ Hn H) as [Hmark Hdoubt].
    split; [exact Hdoubt | split].
    + intros Hc. apply ends_with_any_iff, Hmark, Hdoubt, Hc.
    + intros Hl. right. apply ends_with_any_iff, Hmark, Hl.
Qed.

Lemma EndsWith_trans (s1 s2 s3 : string) :
  EndsWith s1 s2 -> EndsWith s2 s3 -> EndsWith s1 s3.
Proof.
  intros [a ->] [b ->]. exists (a ++ b)%string.
  symmetry. apply str_append_assoc.
Qed.

(** X7: every paragraph that a pass yields as uncertain ends with an end
    mark or a possible end mark. *)
Theorem uncertain_paragraphs_end_with_mark (self : Joiner.t) :
  exists out self',
    Joiner.__iter__ self = Ok (out, self')
    /\ Forall (fun q => Paragraph.uncertain q = true ->
                        Exists (EndsWith (Paragraph.text q)) all_marks) out.
Proof.
  destruct (__iter___total self) as [out [self' H]].
  exists out, self'. split; [exact H |].
  apply (__iter___invariant
           (fun p => Paragraph.uncertain p = false)
           (fun q => Paragraph.uncertain q = true ->
                     Exists (EndsWith (Paragraph.text q)) all_marks)
           (fun _ _ => True)) in H; [apply H | auto | auto | | reflexivity].
  intros s p line nl o p' s' Hp Hstep.
  inversion Hstep as [Hl He | Hl He | c Hl Hlast | c Hl Hlast He
                      | c Hl Hlast He]; subst.
  - split; [reflexivity | split; [| exact I]].
    constructor; [intros Hu; rewrite Hp in Hu; discriminate Hu |].
    constructor; [intros Hu; discriminate Hu | constructor].
  - split; [exact Hp | split; [| exact I]].
    constructor; [intros Hu; discriminate Hu | constructor].
  - split; [reflexivity | split; [| exact I]].
    constructor; [| constructor].
    change (negb c = true ->
            Exists (EndsWith (Paragraph.text (Paragraph.add p line)))
              all_marks).
    intros Hc. destruct c; [discriminate Hc |].
    destruct (Joiner.no_next nl) eqn:Hn.
    + rewrite (_is_last_no_next _ _ _ _ Hn) in Hlast. discriminate Hlast.
    + destruct nl as [nxt |]; [| discriminate Hn]. simpl in Hn.
      destruct (_is_last_marks _ _ _ _ _ _ Hn Hlast) as [Hmark _].
      specialize (Hmark eq_refl). apply ends_with_any_iff in Hmark.
      apply Exists_exists in Hmark. destruct Hmark as [mark [Hin Hend]].
      apply Exists_exists. exists mark. split; [exact Hin |].
      eapply EndsWith_trans; [apply Paragraph_add_EndsWith | exact Hend].
  - split; [exact Hp | split; [constructor | exact I]].
  - split; [exact Hp | split; [constructor | exact I]].
Qed.

(** ** Lines without marks, lines with marks *)

Lemma _is_last_no_mark (self : Joiner.t) (line s : string) (is_first : bool) :
  str_not s = false ->
  Joiner.ends_with_any line all_marks = false ->
  Joiner._is_last self line (Some s) is_first = Ok (false, true).
Proof.
  intros Hs Hmark.
  destruct (_is_last_total self line (Some s) is_first) as [b [c H]].
  destruct (_is_last_marks _ _ _ _ _ _ Hs H) as [Hb Hc].
  destruct b; [rewrite (Hb eq_refl) in Hmark; discriminate Hmark |].
  destruct c; [exact H | discriminate (Hc eq_refl)].
Qed.

Lemma removelast_cons2 {A : Type} (a b : A) (l : list A) :
  removelast (a :: b :: l) = a :: removelast (b :: l).
Proof. reflexivity. Qed.

Lemma removelast_map_strip (ls : list string) :
  removelast (map strip ls) = map strip (removelast ls).
Proof.
  induction ls as [| a [| b ls] IH]; try reflexivity.
  change (map strip (a :: b :: ls)) with (strip a :: strip b :: map strip ls).
  rewrite !removelast_cons2. cbn [map]. f_equal. exact IH.
Qed.

(** Lines without marks, none of them empty, all go to one paragraph. *)
Lemma loop_no_marks (iterator : list string) (self : Joiner.t)
    (p : Paragraph.t) (line : string) :
  Forall (fun l => str_not l = false) (line :: map strip iterator) ->
  Forall (fun l => Joiner.ends_with_any l all_marks = false)
    (removelast (line :: map strip iterator)) ->
  exists self',
    Joiner.loop iterator self p line
    = Ok ([Paragraph.set_uncertain
             (fold_left Paragraph.add (line :: map strip iterator) p) false],
          self').
Proof.
  revert self p line.
  induction iterator as [| l iterator IH]; intros self p line Hnb Hnm.
  - exists self. inversion Hnb as [| ? ? Hl _]; subst.
    apply loop_nil with (p' := Paragraph.__init__).
    apply body_no_next; [exact Hl | reflexivity].
  - change (map strip (l :: iterator)) with (strip l :: map strip iterator)
      in *.
    rewrite removelast_cons2 in Hnm.
    inversion Hnb as [| ? ? Hl Hnb']; subst.
    inversion Hnm as [| ? ? Hm Hnm']; subst.
    inversion Hnb' as [| ? ? Hl' _]; subst.
    pose proof (_is_last_no_mark self line (strip l) (Paragraph.empty p)
                  Hl' Hm) as Hlast.
    assert (Hbody : exists s1,
               Joiner.body self p line (Some (strip l))
               = Ok ([], Paragraph.add p line, s1)).
    { unfold Joiner.body. rewrite Hl, Hlast. cbn [bind].
      destruct (Paragraph.empty p); eexists; reflexivity. }
    destruct Hbody as [s1 Hbody].
    destruct (IH s1 (Paragraph.add p line) (strip l) Hnb' Hnm')
      as [self' Hloop].
    exists self'.
    rewrite (loop_cons _ _ _ _ _ _ _ _ Hbody), Hloop. reflexivity.
Qed.

(** X8: when no line is blank and no line but the last ends with an end
    mark or a possible end mark, a pass joins all the lines into a single
    paragraph, certain, whatever the metrics hold. *)
Theorem unmarked_lines_join (self : Joiner.t) :
  Joiner.lines self <> [] ->
  Forall (fun l => ~ blank l) (Joiner.lines self) ->
  Forall (fun l => ~ Exists (EndsWith (strip l)) all_marks)
    (removelast (Joiner.lines self)) ->
  exists self',
    Joiner.__iter__ self
    = Ok ([{| Paragraph._text := join (map strip (Joiner.lines self));
              Paragraph.uncertain := false |}],
          self').
Proof.
  intros Hne Hnb Hnm. unfold Joiner.__iter__.
  destruct (Joiner.lines self) as [| l iterator];
    [exfalso; apply Hne; reflexivity |].
  apply (loop_no_marks iterator self Paragraph.__init__ (strip l)).
  - change (Forall (fun s => str_not s = false) (map strip (l :: iterator))).
    apply Forall_map. revert Hnb. apply Forall_impl. intros a Ha.
    unfold blank in Ha. destruct (strip a); [contradiction Ha |]; reflexivity.
  - change (strip l :: map strip iterator) with (map strip (l :: iterator)).
    rewrite removelast_map_strip. apply Forall_map.
    revert Hnm. apply Forall_impl. intros a Ha.
    destruct (Joiner.ends_with_any (strip a) all_marks) eqn:E;
      [| reflexivity].
    apply ends_with_any_iff in E. contradiction.
Qed.

Lemma unmarked_lines_join_witness :
  exists self',
    Joiner.__iter__ (Joiner.__init__ unmarked_lines)
    = Ok ([{| Paragraph._text := "The quick brown fox jumps over the lazy dog";
              Paragraph.uncertain := false |}],
          self').
Proof.
  apply (unmarked_lines_join (Joiner.__init__ unmarked_lines)).
  - discriminate.
  - repeat constructor; vm_compute; discriminate.
  - repeat constructor; intros H; apply ends_with_any_iff in H;
      vm_compute in H; discriminate H.
Defined.

Lemma mark_not_empty (line : string) :
  Exists (EndsWith line) all_marks -> str_not line = false.
Proof.
  intros H. apply Exists_exists in H. destruct H as [mark [Hin [pre ->]]].
  rewrite str_not_append.
  assert (Hmark : str_not mark = false).
  { unfold all_marks, Joiner.END_MARKS, Joiner.POSSIBLE_END_MARKS in Hin.
    simpl in Hin.
    repeat (destruct Hin as [<- | Hin]; [reflexivity |]). contradiction Hin. }
  rewrite Hmark. apply andb_false_r.
Qed.

(** With metrics that hold nothing, a mark before a line that is not empty
    closes the paragraph, with doubt: no length is below the threshold 0. *)
Lemma _is_last_fresh_mark (ls : list string) (line s : string)
    (is_first : bool) :
  str_not s = false ->
  Exists (EndsWith line) all_marks ->
  Joiner._is_last (Joiner.__init__ ls) line (Some s) is_first
  = Ok (true, false).
Proof.
  intros Hs Hmark.
  rewrite (_is_last_unfold (Joiner.__init__ ls) line s is_first
             0%float 0%float 0%float 0%float Hs
             eq_refl eq_refl eq_refl eq_refl).
  change (gtb (0 - 0)%float (2 * py_max 0 0)%float) with false.
  change (0 - (0 - 0))%float with 0%float. cbv iota.
  apply ends_with_any_iff in Hmark. unfold all_marks in Hmark.
  rewrite Hmark.
  rewrite (nonneg_not_ltb_zero _ (nonneg_int_to_float (len line))).
  reflexivity.
Qed.

Lemma loop_fresh_marked (ls iterator : list string) (line : string) :
  Forall (fun l => Exists (EndsWith l) all_marks)
    (line :: map strip iterator) ->
  Joiner.loop iterator (Joiner.__init__ ls) Paragraph.__init__ line
  = Ok (map (fun l => {| Paragraph._text := l; Paragraph.uncertain := true |})
          (removelast (line :: map strip iterator))
        ++ [{| Paragraph._text := last (map strip iterator) line;
               Paragraph.uncertain := false |}],
        Joiner.__init__ ls).
Proof.
  revert line. induction iterator as [| l iterator IH]; intros line Hall.
  - inversion Hall as [| ? ? Hm _]; subst.
    apply loop_nil with (p' := Paragraph.__init__).
    rewrite body_no_next; [reflexivity | | reflexivity].
    apply mark_not_empty. exact Hm.
  - change (map strip (l :: iterator)) with (strip l :: map strip iterator)
      in *.
    inversion Hall as [| ? ? Hm Hall']; subst.
    inversion Hall' as [| ? ? Hm' _]; subst.
    assert (Hbody :
              Joiner.body (Joiner.__init__ ls) Paragraph.__init__ line
                (Some (strip l))
              = Ok ([{| Paragraph._text := line;
                        Paragraph.uncertain := true |}],
                    Paragraph.__init__, Joiner.__init__ ls)).
    { unfold Joiner.body.
      rewrite (mark_not_empty _ Hm).
      rewrite (_is_last_fresh_mark ls line (strip l) _
                 (mark_not_empty _ Hm') Hm).
      reflexivity. }
    rewrite (loop_cons _ _ _ _ _ _ _ _ Hbody), (IH _ Hall').
    cbn [bind]. rewrite removelast_cons2, last_cons_default. reflexivity.
Qed.

(** X9: on a new Joiner whose lines all end with an end mark or a possible
    end mark, a pass yields one paragraph for each line, every one but the
    last uncertain, and records nothing in the metrics; so no number of
    warm-up passes changes that. *)
Theorem fresh_marked_lines (ls : list string) :
  ls <> [] ->
  Forall (fun l => Exists (EndsWith (strip l)) all_marks) ls ->
  Joiner.__iter__ (Joiner.__init__ ls)
  = Ok (map (fun l => {| Paragraph._text := strip l;
                         Paragraph.uncertain := true |})
          (removelast ls)
        ++ [{| Paragraph._text := strip (last ls "");
               Paragraph.uncertain := false |}],
        Joiner.__init__ ls)
  /\ forall k : Z,
       Joiner.iterate (Joiner.__init__ ls) k = Ok (Joiner.__init__ ls).
Proof.
  intros Hne Hall.
  assert (Hpass : Joiner.__iter__ (Joiner.__init__ ls)
                  = Ok (map (fun l => {| Paragraph._text := strip l;
                                         Paragraph.uncertain := true |})
                          (removelast ls)
                        ++ [{| Paragraph._text := strip (last ls "");
                               Paragraph.uncertain := false |}],
                        Joiner.__init__ ls)).
  { unfold Joiner.__iter__. cbn [Joiner.lines Joiner.__init__].
    destruct ls as [| l iterator]; [exfalso; apply Hne; reflexivity |].
    rewrite (loop_fresh_marked (l :: iterator) iterator (strip l)).
    - change (strip l :: map strip iterator) with (map strip (l :: iterator)).
      rewrite removelast_map_strip, map_map, last_map_strip,
        last_cons_default.
      reflexivity.
    - change (strip l :: map strip iterator) with (map strip (l :: iterator)).
      apply Forall_map. exact Hall. }
  split; [exact Hpass |].
  intros k. unfold Joiner.iterate.
  induction (Z.to_nat k) as [| n IH]; [reflexivity |].
  cbn [Joiner.repeat_pass]. rewrite Hpass. cbn [bind]. exact IH.
Qed.

Lemma fresh_marked_lines_witness :
  Joiner.__iter__ (Joiner.__init__ marked_lines)
  = Ok ([{| Paragraph._text := "It rained."; Paragraph.uncertain := true |};
         {| Paragraph._text := "We stayed in!"; Paragraph.uncertain := true |};
         {| Paragraph._text := "Did you?"; Paragraph.uncertain := false |}],
        Joiner.__init__ marked_lines)
  /\ forall k : Z,
       Joiner.iterate (Joiner.__init__ marked_lines) k
       = Ok (Joiner.__init__ marked_lines).
Proof.
  apply (fresh_marked_lines marked_lines).
  - discriminate.
  - unfold marked_lines.
    repeat (apply Forall_cons;
            [apply ends_with_any_iff; vm_compute; reflexivity |]).
    apply Forall_nil.
Defined.

(** ** The statistics *)

Lemma SFsqrt_sign (x : spec_float) :
  sf_sign false x -> sf_sign false (SF64sqrt x).
Proof.
  destruct x as [s | s | | s m e]; simpl; intros H; subst; simpl; trivial.
  destruct (SFsqrt_core_binary prec emax (Zpos m) e) as [[mz ez] lz].
  apply binary_round_aux_sign.
Qed.

Lemma nonneg_sqrt (x : float) : nonneg x -> nonneg (PrimFloat.sqrt x).
Proof. unfold nonneg. rewrite sqrt_spec. apply SFsqrt_sign. Qed.

Lemma Metric_dev_nonneg (m : Metric.t) :
  exists dev, Metric.dev m = Ok dev /\ nonneg dev.
Proof.
  destruct (Metric_avg_total m) as [mean [Hmean _]].
  eexists. split; [apply Metric_dev_eq; exact Hmean |].
  apply nonneg_sqrt, nonneg_sum_squares.
Qed.

(** X10: [stats] raises nothing, whatever the metrics hold, and none of its
    four numbers is below zero. *)
Theorem stats_never_negative (self : Joiner.t) :
  exists first_avg first_dev middle_avg middle_dev,
    Joiner.stats self
    = Ok [("first avg", first_avg); ("first dev", first_dev);
          ("middle avg", middle_avg); ("middle dev", middle_dev)]
    /\ (first_avg <? 0)%float = false
    /\ (first_dev <? 0)%float = false
    /\ (middle_avg <? 0)%float = false
    /\ (middle_dev <? 0)%float = false.
Proof.
  destruct (Metric_avg_total (Joiner._first self)) as [fa [Hfa Hnfa]].
  destruct (Metric_dev_nonneg (Joiner._first self)) as [fd [Hfd Hnfd]].
  destruct (Metric_avg_total (Joiner._middle self)) as [ma [Hma Hnma]].
  destruct (Metric_dev_nonneg (Joiner._middle self)) as [md [Hmd Hnmd]].
  exists fa, fd, ma, md. unfold Joiner.stats.
  rewrite Hfa, Hfd, Hma, Hmd. cbn [bind].
  repeat split; apply nonneg_not_ltb_zero; assumption.
Qed.

(** ** The command *)




(** X12: a number of iterations of one or less, zero and the negative ones
    included, makes [run] do what one iteration does: the single pass of a
    new Joiner. *)
Theorem run_iterations_at_most_one (linesep : string) (lines : list string)
    (iterations : Z) :
  (iterations <= 1)%Z ->
  Command.run linesep lines iterations = Command.run linesep lines 1
  /\ Command.run linesep lines iterations
     = '(paragraphs, joiner) <- Joiner.__iter__ (Joiner.__init__ lines) ;;
       Ok (flat_map (Command.write_paragraph linesep) paragraphs, joiner).
Proof.
  intros H. unfold Command.run. cbv zeta.
  rewrite (iterate_nonpositive _ (iterations - 1)) by lia.
  rewrite (iterate_nonpositive _ (1 - 1)) by lia.
  split; reflexivity.
Qed.

Lemma run_iterations_at_most_one_witness :
  Command.run (String (ascii_of_nat 10) "") sample_lines 0
  = Command.run (String (ascii_of_nat 10) "") sample_lines 1
  /\ Command.run (String (ascii_of_nat 10) "") sample_lines 0
     = '(paragraphs, joiner) <- Joiner.__iter__ (Joiner.__init__ sample_lines) ;;
       Ok (flat_map (Command.write_paragraph (String (ascii_of_nat 10) ""))
             paragraphs, joiner).
Proof.
  apply (run_iterations_at_most_one (String (ascii_of_nat 10) "")
           sample_lines 0).
  lia.
Defined.

(** ** Whitespace *)

Lemma lstrip_starts_clean (s : string) : starts_clean (lstrip s).
Proof.
  induction s as [| c s IH]; simpl; [exact I |].
  destruct (isspace c) eqn:E; [exact IH | exact E].
Qed.

Lemma rstrip_starts_clean (s : string) :
  starts_clean s -> starts_clean (rstrip s).
Proof.
  destruct s as [| c s]; simpl; [trivial |].
  intros H. rewrite H. exact H.
Qed.

Lemma last_char_cons (c : ascii) (s : string) :
  last_char (String c s)
  = match s with EmptyString => Some c | String _ _ => last_char s end.
Proof. destruct s; reflexivity. Qed.

Lemma rstrip_ends_clean (s : string) : ends_clean (rstrip s).
Proof.
  unfold ends_clean. induction s as [| c s IH]; simpl; [exact I |].
  destruct (isspace c && str_not (rstrip s)) eqn:E; [exact I |].
  rewrite last_char_cons.
  destruct (rstrip s) as [| c' r]; [| exact IH].
  rewrite andb_true_r in E. exact E.
Qed.

Lemma strip_clean (s : string) :
  starts_clean (strip s) /\ ends_clean (strip s).
Proof.
  unfold strip. split.
  - apply rstrip_starts_clean, lstrip_starts_clean.
  - apply rstrip_ends_clean.
Qed.

Lemma last_char_append (s1 s2 : string) :
  str_not s2 = false -> last_char (s1 ++ s2) = last_char s2.
Proof.
  intros H. induction s1 as [| c s1 IH]; [reflexivity |].
  cbn [append]. rewrite last_char_cons, IH.
  destruct (s1 ++ s2)%string eqn:E; [| reflexivity].
  destruct s1; simpl in E; [subst s2 |]; discriminate.
Qed.

Lemma starts_clean_append (s1 s2 : string) :
  str_not s1 = false -> starts_clean s1 -> starts_clean (s1 ++ s2).
Proof. destruct s1; [discriminate | trivial]. Qed.

Lemma Paragraph_add_clean (p : Paragraph.t) (line : string) :
  str_not line = false -> starts_clean line -> ends_clean line ->
  starts_clean (Paragraph.text p) ->
  starts_clean (Paragraph.text (Paragraph.add p line))
  /\ ends_clean (Paragraph.text (Paragraph.add p line)).
Proof.
  intros Hl Hs He Hp. split.
  - unfold Paragraph.text, Paragraph.add, Paragraph.empty in *. cbn.
    destruct (str_not (Paragraph._text p)) eqn:E.
    + apply str_not_true in E. rewrite E. exact Hs.
    + apply starts_clean_append; assumption.
  - unfold ends_clean, Paragraph.text, Paragraph.add. cbn.
    rewrite last_char_append.
    + rewrite last_char_append by exact Hl. exact He.
    + rewrite str_not_append, Hl. apply andb_false_r.
Qed.

Lemma loop_clean (iterator : list string) (self : Joiner.t)
    (p : Paragraph.t) (line : string)
    (out : list Paragraph.t) (self' : Joiner.t) :
  starts_clean line -> ends_clean line ->
  starts_clean (Paragraph.text p) -> ends_clean (Paragraph.text p) ->
  Joiner.loop iterator self p line = Ok (out, self') ->
  Forall (fun q => starts_clean (Paragraph.text q)
                   /\ ends_clean (Paragraph.text q)) out.
Proof.
  revert self p line out self'.
  induction iterator as [| l iterator IH];
    intros self p line out self' Hs He Hps Hpe H.
  - apply loop_nil_inv in H. destruct H as [p' Hstep].
    inversion Hstep; subst; repeat constructor; trivial;
      apply Paragraph_add_clean; assumption.
  - apply loop_cons_inv in H.
    destruct H as [o1 [p' [s' [o2 [Hstep [Hloop ->]]]]]].
    destruct (strip_clean l) as [Hs' He'].
    apply Forall_app.
    inversion Hstep; subst.
    + split; [repeat constructor; trivial |].
      apply (IH _ Paragraph.__init__ _ _ _ Hs' He' I I Hloop).
    + split; [repeat constructor; trivial |].
      apply (IH _ _ _ _ _ Hs' He' Hps Hpe Hloop).
    + split; [repeat constructor; apply Paragraph_add_clean; assumption |].
      apply (IH _ Paragraph.__init__ _ _ _ Hs' He' I I Hloop).
    + split; [constructor |].
      destruct (Paragraph_add_clean p line) as [Ha Hb]; try assumption.
      apply (IH _ _ _ _ _ Hs' He' Ha Hb Hloop).
    + split; [constructor |].
      destruct (Paragraph_add_clean p line) as [Ha Hb]; try assumption.
      apply (IH _ _ _ _ _ Hs' He' Ha Hb Hloop).
Qed.

(** X13: no paragraph that a pass yields starts or ends with whitespace,
    however the lines are indented or padded. *)
Theorem paragraphs_have_no_outer_whitespace (self : Joiner.t) :
  exists out self',
    Joiner.__iter__ self = Ok (out, self')
    /\ Forall (fun q => starts_clean (Paragraph.text q)
                        /\ ends_clean (Paragraph.text q)) out.
Proof.
  destruct (__iter___total self) as [out [self' H]].
  exists out, self'. split; [exact H |].
  unfold Joiner.__iter__ in H.
  destruct (Joiner.lines self) as [| l iterator].
  - injection H as <- _. constructor.
  - destruct (strip_clean l) as [Hs He].
    apply (loop_clean _ _ Paragraph.__init__ _ _ _ Hs He I I H).
Qed.

(** ** Where the values of the metrics come from *)

Lemma loop_values (iterator : list string) (self : Joiner.t)
    (p : Paragraph.t) (line : string)
    (out : list Paragraph.t) (self' : Joiner.t) :
  Joiner.loop iterator self p line = Ok (out, self') ->
  exists added_first added_middle,
    Metric._values (Joiner._first self')
    = Metric._values (Joiner._first self) ++ added_first
    /\ Metric._values (Joiner._middle self')
       = Metric._values (Joiner._middle self) ++ added_middle
    /\ Forall (fun v => In v (map len (line :: map strip iterator)))
         (added_first ++ added_middle).
Proof.
  revert self p line out self'.
  induction iterator as [| l iterator IH]; intros self p line out self' H.
  - apply loop_nil_inv in H. destruct H as [p' Hstep].
    inversion Hstep as [Hl He | Hl He | c Hl Hlast | c Hl Hlast He
                        | c Hl Hlast He]; subst;
      try (rewrite _is_last_no_next in Hlast by reflexivity;
           discriminate Hlast);
      exists [], []; rewrite !app_nil_r; repeat split; constructor.
  - apply loop_cons_inv in H.
    destruct H as [o1 [p' [s' [o2 [Hstep [Hloop _]]]]]].
    destruct (IH _ _ _ _ _ Hloop) as [af [am [Hf [Hm Hin]]]].
    assert (Hin' : forall vs,
               Forall (fun v => In v (map len (strip l :: map strip iterator)))
                 vs ->
               Forall (fun v => In v (map len (line :: map strip
                                                          (l :: iterator))))
                 vs).
    { intros vs. apply Forall_impl. intros v Hv. right. exact Hv. }
    inversion Hstep as [Hl He | Hl He | c Hl Hlast | c Hl Hlast He
                        | c Hl Hlast He]; subst.
    + exists af, am. repeat split; auto.
    + exists af, am. repeat split; auto.
    + exists af, am. repeat split; auto.
    + exists (len line :: af), am. cbn [Joiner._first Joiner._middle
                                         Metric.add Metric._values] in *.
      split; [rewrite Hf, <- app_assoc; reflexivity |].
      split; [exact Hm |].
      cbn [app]. constructor; [left; reflexivity | apply Hin'; exact Hin].
    + exists af, (len line :: am). cbn [Joiner._first Joiner._middle
                                         Metric.add Metric._values] in *.
      split; [exact Hf |].
      split; [rewrite Hm, <- app_assoc; reflexivity |].
      apply Forall_app. apply Forall_app in Hin. destruct Hin as [Ha Hb].
      split; [apply Hin'; exact Ha |].
      constructor; [left; reflexivity | apply Hin'; exact Hb].
Qed.

(** X14: whatever a pass adds to the metrics is the length of one of the
    lines of the joiner, stripped: the statistics are about the input and
    nothing else. *)
Theorem pass_records_line_lengths (self : Joiner.t) :
  exists out self' added_first added_middle,
    Joiner.__iter__ self = Ok (out, self')
    /\ Metric._values (Joiner._first self')
       = Metric._values (Joiner._first self) ++ added_first
    /\ Metric._values (Joiner._middle self')
       = Metric._values (Joiner._middle self) ++ added_middle
    /\ Forall (fun v => exists l,
                          In l (Joiner.lines self) /\ v = len (strip l))
         (added_first ++ added_middle).
Proof.
  destruct (__iter___total self) as [out [self' H]].
  pose proof H as H'. unfold Joiner.__iter__ in H'.
  destruct (Joiner.lines self) as [| l iterator].
  - injection H' as <- <-. exists [], self, [], [].
    rewrite !app_nil_r. repeat split; try exact H. constructor.
  - destruct (loop_values _ _ _ _ _ _ H') as [af [am [Hf [Hm Hin]]]].
    exists out, self', af, am. repeat split; try assumption.
    revert Hin. apply Forall_impl. intros v Hv.
    change (strip l :: map strip iterator) with (map strip (l :: iterator))
      in Hv.
    rewrite map_map in Hv. apply in_map_iff in Hv.
    destruct Hv as [x [<- Hx]]. exists x. split; [exact Hx | reflexivity].
Qed.
